(** * ArterialNet: model construction, model naming and forward pass

    A shallow embedding of [src/arterial_net/models/models.py]:
    [get_model], [GATv2Layer] and [ArterialNet].

    Python integers are [Z], Python strings are [string], tensors are
    row-major matrices over the reals (the arithmetic of the tensor framework
    idealised).  The layers of torch and torch_geometric are not part of the
    repository: their constructors and forward functions are the fields of
    the interface [Torch], and the theorems of the section [Properties] hold
    for every implementation of that interface.  Construction and forward
    evaluation thread the framework's state (random generator, buffers,
    parameters) and may raise.  The last part runs the model on concrete
    inputs, on a small executable implementation of the interface. *)

From Stdlib Require Import ZArith List String Ascii Reals Lra Lia.
From stdpp Require Import base list strings pretty.

Import ListNotations.
Local Open Scope string_scope.
Local Open Scope Z_scope.

(** ** Python exceptions and results *)

Inductive exn : Type :=
  | RuntimeError
  | ValueError
  | IndexError
  | AttributeError
  | UnboundLocalError.

Inductive result (A : Type) : Type :=
  | Ok (a : A)
  | Raise (e : exn).
Arguments Ok {A} a.
Arguments Raise {A} e.

Definition result_bind {A B} (r : result A) (k : A -> result B) : result B :=
  match r with
  | Ok a => k a
  | Raise e => Raise e
  end.

(** ** Tensors *)

(** A 2-D tensor: one row per sample (or per node), one column per feature. *)
Definition Tensor : Type := list (list R).

Definition EdgeIndex : Type := list (nat * nat).

(** Every row of [t] has [w] features. *)
Definition has_width (w : Z) (t : Tensor) : Prop :=
  Forall (fun row => Z.of_nat (length row) = w) t.

Definition Rsum (l : list R) : R := fold_right Rplus 0%R l.

(** [F.leaky_relu(x, negative_slope)] and [nn.LeakyReLU]:
    max(0, x) + negative_slope * min(0, x), element-wise. *)
Definition leaky_relu (negative_slope : R) (x : Tensor) : Tensor :=
  map (map (fun v => (Rmax 0 v + negative_slope * Rmin 0 v)%R)) x.

(** [nn.Softmax(dim=1)] on a 2-D tensor: exp(x_j) / sum_k exp(x_k) per row. *)
Definition softmax_row (row : list R) : list R :=
  map (fun v => (exp v / Rsum (map exp row))%R) row.

Definition softmax_dim1 (x : Tensor) : Tensor := map softmax_row x.

Fixpoint zip_rows (a b : Tensor) : Tensor :=
  match a, b with
  | r :: a', s :: b' => (r ++ s)%list :: zip_rows a' b'
  | _, _ => []
  end.

(** [torch.cat(tensors, dim=1)] on 2-D tensors: the list must not be empty
    and all tensors must have the same number of rows. *)
Fixpoint torch_cat_dim1 (tensors : list Tensor) : result Tensor :=
  match tensors with
  | [] => Raise RuntimeError
  | t :: rest =>
      match rest with
      | [] => Ok t
      | _ :: _ =>
          result_bind (torch_cat_dim1 rest) (fun u =>
            if Nat.eqb (length t) (length u) then Ok (zip_rows t u)
            else Raise RuntimeError)
      end
  end.

(** [[x for x in xs if x is not None]] *)
Fixpoint not_None {A} (xs : list (option A)) : list A :=
  match xs with
  | [] => []
  | Some x :: xs' => x :: not_None xs'
  | None :: xs' => not_None xs'
  end.

(** Row [i] of a branch embedding; a disabled branch ([None]) has no features. *)
Definition features_at (i : nat) (t : option Tensor) : list R :=
  match t with
  | Some x => nth i x []
  | None => []
  end.

(** ** Python built-ins used by the source *)

(** [sum] of a list of booleans. *)
Definition py_sum (bs : list bool) : Z :=
  fold_right (fun b acc => Z.b2z b + acc) 0 bs.

(** [range(n)] *)
Definition range (n : Z) : list Z := map Z.of_nat (seq 0 (Z.to_nat n)).

Definition str_int (n : Z) : string := pretty n.

Definition str_bool (b : bool) : string := if b then "True" else "False".

(** [template.format(a1, ..., an)] for templates whose only fields are [{}]:
    each [{}] is replaced by the next argument; too few arguments raise.
    Brace escapes and named or numbered fields do not occur in the templates
    of the source and are not modelled. *)
Fixpoint format (template : string) (args : list string) : result string :=
  match template with
  | EmptyString => Ok EmptyString
  | String c rest =>
      match c, rest with
      | "{"%char, String "}"%char rest' =>
          match args with
          | a :: args' =>
              result_bind (format rest' args') (fun s => Ok (a ++ s))
          | [] => Raise IndexError
          end
      | _, _ => result_bind (format rest args) (fun s => Ok (String c s))
      end
  end.

(** ** Layers of the tensor framework *)

(** The constructor calls the source makes, with their arguments.
    [F] is the type of Python floats. *)
Inductive LayerSpec (F : Type) : Type :=
  | Linear (in_features out_features : Z)
  | LeakyReLU (negative_slope : R)
  | BatchNorm1d (num_features : Z)
  | Dropout (p : F)
  | Softmax (dim : Z)
  | GATv2Conv (in_channels out_channels : Z) (edge_dim : option Z)
  | BatchNorm (in_channels : Z).
Arguments Linear {F} in_features out_features.
Arguments LeakyReLU {F} negative_slope.
Arguments BatchNorm1d {F} num_features.
Arguments Dropout {F} p.
Arguments Softmax {F} dim.
Arguments GATv2Conv {F} in_channels out_channels edge_dim.
Arguments BatchNorm {F} in_channels.

(** A constructed layer: its constructor call and the parameters and buffers
    the framework allocated for it. *)
Record Layer (F P : Type) : Type := mkLayer {
  spec : LayerSpec F;
  params : P
}.
Arguments mkLayer {F P} spec params.
Arguments spec {F P} l.
Arguments params {F P} l.

(** The three pooling functions imported from torch_geometric. *)
Inductive pool_fn : Type :=
  | global_add_pool
  | global_mean_pool
  | global_max_pool.

(** The interface of the tensor framework.  [new_module] is a layer
    constructor (it may reject its arguments and it draws the initial
    parameters), [module_forward] calls [Linear], [BatchNorm1d], [BatchNorm]
    and [Dropout] layers, [conv_forward] calls a [GATv2Conv] layer with
    [(x, edge_index, edge_attr)], [pool] is [global_*_pool(x, batch)],
    [module_to] is [Module.to(device)] (it moves the parameters, which are
    part of the framework state, and may raise on a device it cannot use) and
    [float_str] is [str] on floats. *)
Class Torch : Type := {
  pyfloat : Type;
  FwState : Type;
  Params : Type;
  float_str : pyfloat -> string;
  new_module : LayerSpec pyfloat -> FwState -> result (Params * FwState);
  module_forward :
    Layer pyfloat Params -> Tensor -> FwState -> result (Tensor * FwState);
  conv_forward :
    Layer pyfloat Params -> Tensor -> EdgeIndex -> option Tensor ->
    FwState -> result (Tensor * FwState);
  pool : pool_fn -> Tensor -> option (list nat) -> result Tensor;
  module_to : string -> FwState -> result FwState
}.

(** ** Inputs of [get_model] *)

(** Modelled from the spec: the argparse declaration of [args] is not part of
    the sources.  The fields are the attributes [get_model] reads; their
    types follow its docstring (integers, strings) and the spec's interface
    (optimizer and scheduler identifiers, weighted-loss and oversampling
    flags, learning rate and dropout rate, an optional free-form tag). *)
Module Args.
Record t (F : Type) : Type := mk {
  base_model_name : string;
  batch_size : Z;
  total_epochs : Z;
  hidden_channels : Z;
  hidden_channels_dense : Z;
  optimizer : string;
  learning_rate : F;
  lr_scheduler : string;
  num_global_layers : Z;
  num_segment_layers : Z;
  num_dense_layers : Z;
  aggregation : string;
  dropout : F;
  weighted_loss : bool;
  oversampling : bool;
  random_state : Z;
  test_random_state : Z;
  is_classification : bool;
  tag : option string
}.
Arguments mk {F}.
Arguments base_model_name {F} _.
Arguments batch_size {F} _.
Arguments total_epochs {F} _.
Arguments hidden_channels {F} _.
Arguments hidden_channels_dense {F} _.
Arguments optimizer {F} _.
Arguments learning_rate {F} _.
Arguments lr_scheduler {F} _.
Arguments num_global_layers {F} _.
Arguments num_segment_layers {F} _.
Arguments num_dense_layers {F} _.
Arguments aggregation {F} _.
Arguments dropout {F} _.
Arguments weighted_loss {F} _.
Arguments oversampling {F} _.
Arguments random_state {F} _.
Arguments test_random_state {F} _.
Arguments is_classification {F} _.
Arguments tag {F} _.

(** The hyperparameters, one name per attribute. *)
Inductive field : Type :=
  | f_base_model_name | f_batch_size | f_total_epochs | f_hidden_channels
  | f_hidden_channels_dense | f_optimizer | f_learning_rate | f_lr_scheduler
  | f_num_global_layers | f_num_segment_layers | f_num_dense_layers
  | f_aggregation | f_dropout | f_weighted_loss | f_oversampling
  | f_random_state | f_test_random_state | f_is_classification | f_tag.

(** The Python values the attributes hold. *)
Inductive value (F : Type) : Type :=
  | v_str (s : string)
  | v_int (n : Z)
  | v_float (x : F)
  | v_bool (b : bool)
  | v_opt_str (o : option string).
Arguments v_str {F} s.
Arguments v_int {F} n.
Arguments v_float {F} x.
Arguments v_bool {F} b.
Arguments v_opt_str {F} o.

(** [getattr(args, k)] *)
Definition get {F} (k : field) (a : t F) : value F :=
  match k with
  | f_base_model_name => v_str (base_model_name a)
  | f_batch_size => v_int (batch_size a)
  | f_total_epochs => v_int (total_epochs a)
  | f_hidden_channels => v_int (hidden_channels a)
  | f_hidden_channels_dense => v_int (hidden_channels_dense a)
  | f_optimizer => v_str (optimizer a)
  | f_learning_rate => v_float (learning_rate a)
  | f_lr_scheduler => v_str (lr_scheduler a)
  | f_num_global_layers => v_int (num_global_layers a)
  | f_num_segment_layers => v_int (num_segment_layers a)
  | f_num_dense_layers => v_int (num_dense_layers a)
  | f_aggregation => v_str (aggregation a)
  | f_dropout => v_float (dropout a)
  | f_weighted_loss => v_bool (weighted_loss a)
  | f_oversampling => v_bool (oversampling a)
  | f_random_state => v_int (random_state a)
  | f_test_random_state => v_int (test_random_state a)
  | f_is_classification => v_bool (is_classification a)
  | f_tag => v_opt_str (tag a)
  end.

(** Two configurations differ in exactly the hyperparameter [k]. *)
Definition differ_only_at {F} (k : field) (a b : t F) : Prop :=
  get k a <> get k b /\ forall j, j <> k -> get j a = get j b.
End Args.

(** [dataset_description]: the four entries [get_model] reads.  A dataset
    without segment edge features has [num_segment_edge_features = None]. *)
Record DatasetDescription : Type := {
  num_global_features : Z;
  num_segment_node_features : Z;
  num_segment_edge_features : option Z;
  num_dense_node_features : Z
}.

(** ** Inputs of [ArterialNet.forward] *)

(** A batched graph: [segment_data] and [dense_data]. *)
Record GraphData : Type := {
  x : Tensor;
  edge_index : EdgeIndex;
  edge_attr : option Tensor;
  batch : option (list nat)
}.

(** The argument of [forward].  A value of this type carries both graphs
    with their node features: the reads of [segment_data.x] and
    [dense_data.x] at lines 195 and 204, which come before the tests of the
    paths, cannot fail on it.  A batch that lacks a graph is outside this
    type. *)
Record Data : Type := {
  global_data : Tensor;
  segment_data : GraphData;
  dense_data : GraphData
}.

(** [data] with the edge features of one of its graphs replaced. *)
Definition with_edge_attr (g : GraphData) (a : option Tensor) : GraphData :=
  {| x := x g; edge_index := edge_index g; edge_attr := a; batch := batch g |}.

Definition with_segment_edge_attr (data : Data) (a : option Tensor) : Data :=
  {| global_data := global_data data;
     segment_data := with_edge_attr (segment_data data) a;
     dense_data := dense_data data |}.

Definition with_dense_edge_attr (data : Data) (a : option Tensor) : Data :=
  {| global_data := global_data data;
     segment_data := segment_data data;
     dense_data := with_edge_attr (dense_data data) a |}.

(** ** The model *)

Section Model.
Context {T : Torch}.

(** Computations that thread the framework state and may raise. *)
Definition M (A : Type) : Type := FwState -> result (A * FwState).

Definition ret {A} (a : A) : M A := fun st => Ok (a, st).

Definition raise {A} (e : exn) : M A := fun _ => Raise e.

Definition bind {A B} (m : M A) (k : A -> M B) : M B :=
  fun st =>
    match m st with
    | Ok (a, st') => k a st'
    | Raise e => Raise e
    end.

Definition lift {A} (r : result A) : M A :=
  fun st =>
    match r with
    | Ok a => Ok (a, st)
    | Raise e => Raise e
    end.

Notation "v <- m ;; k" := (bind m (fun v => k))
  (at level 100, m at next level, right associativity).

Fixpoint mapM {A B} (f : A -> M B) (l : list A) : M (list B) :=
  match l with
  | [] => ret []
  | a :: l' => b <- f a ;; bs <- mapM f l' ;; ret (b :: bs)
  end.

Definition layer : Type := Layer pyfloat Params.

(** A framework constructor call [nn.X(...)]. *)
Definition new (s : LayerSpec pyfloat) : M layer :=
  p <- new_module s ;; ret (mkLayer s p).

(** Calling a framework layer on one tensor.  [LeakyReLU] and
    [Softmax(dim=1)] are given by their formulas. *)
Definition layer_forward (l : layer) (input : Tensor) : M Tensor :=
  match spec l with
  | LeakyReLU negative_slope => ret (leaky_relu negative_slope input)
  | Softmax 1 => ret (softmax_dim1 input)
  | _ => module_forward l input
  end.

(** The two shapes of module the source builds from framework layers. *)
Inductive NNModule : Type :=
  | Single (l : layer)
  | Sequential (layers : list layer).

Fixpoint Sequential_forward (layers : list layer) (input : Tensor)
  : M Tensor :=
  match layers with
  | [] => ret input
  | l :: rest => y <- layer_forward l input ;; Sequential_forward rest y
  end.

Definition NNModule_forward (m : NNModule) (input : Tensor) : M Tensor :=
  match m with
  | Single l => layer_forward l input
  | Sequential layers => Sequential_forward layers input
  end.

(** *** class GATv2Layer *)

Record GATv2Layer : Type := {
  conv : layer;
  bn : layer;
  gat_dropout : layer;
  edge_dim : option Z
}.

Definition GATv2Layer_init (in_channels out_channels : Z)
    (edge_dim : option Z) (dropout_rate : pyfloat) : M GATv2Layer :=
  conv <- new (GATv2Conv in_channels out_channels edge_dim) ;;
  bn <- new (BatchNorm out_channels) ;;
  dropout <- new (Dropout dropout_rate) ;;
  ret {| conv := conv; bn := bn; gat_dropout := dropout;
         edge_dim := edge_dim |}.

Definition GATv2Layer_forward (self : GATv2Layer) (x0 : Tensor)
    (edge_index : EdgeIndex) (edge_attr : option Tensor) : M Tensor :=
  x1 <- match edge_dim self with
        | Some _ => conv_forward (conv self) x0 edge_index edge_attr
        | None => conv_forward (conv self) x0 edge_index None
        end ;;
  x2 <- ret (leaky_relu 0.2 x1) ;;
  x3 <- layer_forward (bn self) x2 ;;
  x4 <- layer_forward (gat_dropout self) x3 ;;
  ret x4.

(** *** class ArterialNet *)

Record ArterialNet : Type := {
  global_in_dim : Z;
  segment_node_in_dim : Z;
  segment_edge_in_dim : option Z;
  dense_node_in_dim : Z;
  hidden_dim : Z;
  hidden_dim_dense : Z;
  out_dim : Z;
  num_global_layers : Z;
  num_segment_layers : Z;
  num_dense_layers : Z;
  aggregation_ : string;
  dropout : pyfloat;
  is_classification : bool;
  global_path : option (list NNModule);
  segment_path : option (list GATv2Layer);
  dense_path : option (list GATv2Layer);
  output_layer : NNModule;
  (** [None]: the attribute [self.aggregation] was never assigned. *)
  aggregation : option pool_fn
}.

(** One block of the global path, lines 131-136. *)
Definition global_block (global_in_dim hidden_dim : Z) (dropout : pyfloat)
    (idx : Z) : M NNModule :=
  l1 <- new (Linear (if idx =? 0 then global_in_dim else hidden_dim)
               hidden_dim) ;;
  l2 <- new (LeakyReLU 0.2) ;;
  l3 <- new (BatchNorm1d hidden_dim) ;;
  l4 <- new (Dropout dropout) ;;
  ret (Sequential [l1; l2; l3; l4]).

Definition ArterialNet_init
    (global_in_dim segment_node_in_dim : Z) (segment_edge_in_dim : option Z)
    (dense_node_in_dim hidden_dim hidden_dim_dense out_dim : Z)
    (num_global_layers num_segment_layers num_dense_layers : Z)
    (aggregation : string) (dropout : pyfloat) (is_classification : bool)
  : M ArterialNet :=
  global_path <-
    (if 0 <? num_global_layers then
       path <- mapM (global_block global_in_dim hidden_dim dropout)
                 (range num_global_layers) ;;
       ret (Some path)
     else ret None) ;;
  segment_path <-
    (if 0 <? num_segment_layers then
       path <- mapM (fun idx =>
                 GATv2Layer_init
                   (if idx =? 0 then segment_node_in_dim else hidden_dim)
                   hidden_dim segment_edge_in_dim dropout)
                 (range num_segment_layers) ;;
       ret (Some path)
     else ret None) ;;
  dense_path <-
    (if 0 <? num_dense_layers then
       path <- mapM (fun idx =>
                 GATv2Layer_init
                   (if idx =? 0 then dense_node_in_dim else hidden_dim_dense)
                   hidden_dim_dense None dropout)
                 (range num_dense_layers) ;;
       ret (Some path)
     else ret None) ;;
  output_layer <-
    (if is_classification then
       l1 <- new (Linear
               (hidden_dim * py_sum [0 <? num_global_layers;
                                     0 <? num_segment_layers]
                + hidden_dim_dense * py_sum [0 <? num_dense_layers])
               out_dim) ;;
       l2 <- new (Softmax 1) ;;
       ret (Sequential [l1; l2])
     else
       l <- new (Linear
               (hidden_dim * py_sum [0 <? num_global_layers;
                                     0 <? num_segment_layers;
                                     0 <? num_dense_layers])
               out_dim) ;;
       ret (Single l)) ;;
  ret {| global_in_dim := global_in_dim;
         segment_node_in_dim := segment_node_in_dim;
         segment_edge_in_dim := segment_edge_in_dim;
         dense_node_in_dim := dense_node_in_dim;
         hidden_dim := hidden_dim;
         hidden_dim_dense := hidden_dim_dense;
         out_dim := out_dim;
         num_global_layers := num_global_layers;
         num_segment_layers := num_segment_layers;
         num_dense_layers := num_dense_layers;
         aggregation_ := aggregation;
         dropout := dropout;
         is_classification := is_classification;
         global_path := global_path;
         segment_path := segment_path;
         dense_path := dense_path;
         output_layer := output_layer;
         aggregation :=
           if String.eqb aggregation "add" then Some global_add_pool
           else if String.eqb aggregation "mean" then Some global_mean_pool
           else if String.eqb aggregation "max" then Some global_max_pool
           else None |}.

(** [self.aggregation(x, batch)]; the attribute lookup fails when the
    constructor did not assign it. *)
Definition call_aggregation (self : ArterialNet) (x0 : Tensor)
    (batch : option (list nat)) : M Tensor :=
  match aggregation self with
  | Some f => lift (pool f x0 batch)
  | None => raise AttributeError
  end.

Fixpoint global_loop (path : list NNModule) (features : Tensor) : M Tensor :=
  match path with
  | [] => ret features
  | l :: rest => y <- NNModule_forward l features ;; global_loop rest y
  end.

Fixpoint graph_loop (path : list GATv2Layer) (x0 : Tensor)
    (edge_index : EdgeIndex) (edge_attr : option Tensor) : M Tensor :=
  match path with
  | [] => ret x0
  | l :: rest =>
      y <- GATv2Layer_forward l x0 edge_index edge_attr ;;
      graph_loop rest y edge_index edge_attr
  end.

(** Lines 187-192. *)
Definition forward_global (self : ArterialNet) (data : Data)
  : M (option Tensor) :=
  match global_path self with
  | Some path =>
      global_features <- global_loop path (global_data data) ;;
      ret (Some global_features)
  | None => ret None
  end.

(** Lines 195-201. *)
Definition forward_segment (self : ArterialNet) (data : Data)
  : M (option Tensor) :=
  match segment_path self with
  | Some path =>
      segment_x <- graph_loop path (x (segment_data data))
                     (edge_index (segment_data data))
                     (edge_attr (segment_data data)) ;;
      segment_x <- call_aggregation self segment_x
                     (batch (segment_data data)) ;;
      ret (Some segment_x)
  | None => ret None
  end.

(** Lines 204-210. *)
Definition forward_dense (self : ArterialNet) (data : Data)
  : M (option Tensor) :=
  match dense_path self with
  | Some path =>
      dense_x <- graph_loop path (x (dense_data data))
                   (edge_index (dense_data data)) None ;;
      dense_x <- call_aggregation self dense_x (batch (dense_data data)) ;;
      ret (Some dense_x)
  | None => ret None
  end.

Definition forward (self : ArterialNet) (data : Data) : M Tensor :=
  global_features <- forward_global self data ;;
  segment_x <- forward_segment self data ;;
  dense_x <- forward_dense self data ;;
  total_features <-
    lift (torch_cat_dim1 (not_None [global_features; segment_x; dense_x])) ;;
  NNModule_forward (output_layer self) total_features.

(** *** get_model *)

(** Lines 39-46: the name string. *)
Definition model_name (args : Args.t pyfloat) : result string :=
  result_bind
    (format "{}_bs-{}_te-{}_hc-{}_hcd-{}_op-{}_lr-{}_lrs-{}_ngl-{}_nsl-{}_ndl-{}_agg-{}_drop-{}_wl-{}_os-{}_rs-{}_trs-{}"
       [Args.base_model_name args; str_int (Args.batch_size args);
        str_int (Args.total_epochs args);
        str_int (Args.hidden_channels args);
        str_int (Args.hidden_channels_dense args); Args.optimizer args;
        float_str (Args.learning_rate args); Args.lr_scheduler args;
        str_int (Args.num_global_layers args);
        str_int (Args.num_segment_layers args);
        str_int (Args.num_dense_layers args); Args.aggregation args;
        float_str (Args.dropout args); str_bool (Args.weighted_loss args);
        str_bool (Args.oversampling args);
        str_int (Args.random_state args);
        str_int (Args.test_random_state args)])
    (fun model_name =>
       let model_name :=
         if Args.is_classification args then model_name ++ "_class"
         else model_name in
       match Args.tag args with
       | Some tag =>
           result_bind (format "_tag-{}" [tag]) (fun s =>
             Ok (model_name ++ s))
       | None => Ok model_name
       end).

(** [module.to(device)]: the module itself is returned. *)
Definition to_device (device : string) : M unit :=
  fun st =>
    match module_to device st with
    | Ok st' => Ok (tt, st')
    | Raise e => Raise e
    end.

(** [get_model(args, dataset_description, device)].  The console output of
    lines 48-57 is not modelled.  The local variable [model] is bound only in
    the branch of line 60, to the constructed module once it has been moved
    to [device]. *)
Definition get_model (args : Args.t pyfloat)
    (dataset_description : DatasetDescription) (device : string)
  : M (ArterialNet * string) :=
  model_name <- lift (model_name args) ;;
  model <-
    (if String.eqb (Args.base_model_name args) "ArterialNet" then
       m <- ArterialNet_init
              (num_global_features dataset_description)
              (num_segment_node_features dataset_description)
              (num_segment_edge_features dataset_description)
              (num_dense_node_features dataset_description)
              (Args.hidden_channels args)
              (Args.hidden_channels_dense args)
              (if Args.is_classification args then 2 else 1)
              (Args.num_global_layers args)
              (Args.num_segment_layers args)
              (Args.num_dense_layers args)
              (Args.aggregation args)
              (Args.dropout args)
              (Args.is_classification args) ;;
       _ <- to_device device ;;
       ret (Some m)
     else ret None) ;;
  match model with
  | Some m => ret (m, model_name)
  | None => raise UnboundLocalError
  end.

(** *** Derived quantities *)

(** [in_features] of the linear projection of the fusion head. *)
Definition fan_in (output_layer : NNModule) : option Z :=
  match output_layer with
  | Single l | Sequential (l :: _) =>
      match spec l with
      | Linear in_features _ => Some in_features
      | _ => None
      end
  | Sequential [] => None
  end.

(** The width a branch contributes to the fused features: its hidden width
    when its path was built, nothing when the path is [None]. *)
Definition branch_width {A} (path : option A) (width : Z) : Z :=
  match path with
  | Some _ => width
  | None => 0
  end.

(** The sum of the hidden widths of the active branches. *)
Definition active_width (self : ArterialNet) : Z :=
  branch_width (global_path self) (hidden_dim self)
  + branch_width (segment_path self) (hidden_dim self)
  + branch_width (dense_path self) (hidden_dim_dense self).

(** *** Contracts of the framework layers

    The documented shapes of the framework's layers, stated for an
    arbitrary implementation of the interface. *)

(** [Linear(i, o)] maps a tensor of n rows to n rows of o features. *)
Definition Linear_contract : Prop :=
  forall (l : layer) i o input s y s',
    spec l = Linear i o ->
    module_forward l input s = Ok (y, s') ->
    length y = length input /\ has_width o y.

(** [GATv2Conv(i, o, e)] (one head) returns o features per node. *)
Definition GATv2Conv_contract : Prop :=
  forall (l : layer) i o e input edge_index edge_attr s y s',
    spec l = GATv2Conv i o e ->
    conv_forward l input edge_index edge_attr s = Ok (y, s') ->
    length y = length input /\ has_width o y.

(** Batch normalisation and dropout return a tensor of the input's shape. *)
Definition shape_preserving_contract : Prop :=
  forall (l : layer) input s y s',
    match spec l with
    | BatchNorm1d _ | BatchNorm _ | Dropout _ => True
    | _ => False
    end ->
    module_forward l input s = Ok (y, s') ->
    length y = length input /\ forall w, has_width w input -> has_width w y.

(** *** The pieces of the model name *)

(** The text a hyperparameter contributes to the name: its [str], except
    for [is_classification] (the suffix ["_class"] or nothing) and [tag]
    (["_tag-"] and the tag, or nothing). *)
Definition field_str (k : Args.field) (args : Args.t pyfloat) : string :=
  match k with
  | Args.f_base_model_name => Args.base_model_name args
  | Args.f_batch_size => str_int (Args.batch_size args)
  | Args.f_total_epochs => str_int (Args.total_epochs args)
  | Args.f_hidden_channels => str_int (Args.hidden_channels args)
  | Args.f_hidden_channels_dense =>
      str_int (Args.hidden_channels_dense args)
  | Args.f_optimizer => Args.optimizer args
  | Args.f_learning_rate => float_str (Args.learning_rate args)
  | Args.f_lr_scheduler => Args.lr_scheduler args
  | Args.f_num_global_layers => str_int (Args.num_global_layers args)
  | Args.f_num_segment_layers => str_int (Args.num_segment_layers args)
  | Args.f_num_dense_layers => str_int (Args.num_dense_layers args)
  | Args.f_aggregation => Args.aggregation args
  | Args.f_dropout => float_str (Args.dropout args)
  | Args.f_weighted_loss => str_bool (Args.weighted_loss args)
  | Args.f_oversampling => str_bool (Args.oversampling args)
  | Args.f_random_state => str_int (Args.random_state args)
  | Args.f_test_random_state => str_int (Args.test_random_state args)
  | Args.f_is_classification =>
      if Args.is_classification args then "_class" else ""
  | Args.f_tag =>
      match Args.tag args with
      | Some tag => "_tag-" ++ tag
      | None => ""
      end
  end.

Inductive name_item : Type :=
  | sep (s : string)
  | fld (k : Args.field).

(** The name of lines 39-46, read left to right. *)
Definition name_items : list name_item :=
  [fld Args.f_base_model_name; sep "_bs-"; fld Args.f_batch_size;
   sep "_te-"; fld Args.f_total_epochs; sep "_hc-";
   fld Args.f_hidden_channels; sep "_hcd-";
   fld Args.f_hidden_channels_dense; sep "_op-"; fld Args.f_optimizer;
   sep "_lr-"; fld Args.f_learning_rate; sep "_lrs-";
   fld Args.f_lr_scheduler; sep "_ngl-"; fld Args.f_num_global_layers;
   sep "_nsl-"; fld Args.f_num_segment_layers; sep "_ndl-";
   fld Args.f_num_dense_layers; sep "_agg-"; fld Args.f_aggregation;
   sep "_drop-"; fld Args.f_dropout; sep "_wl-"; fld Args.f_weighted_loss;
   sep "_os-"; fld Args.f_oversampling; sep "_rs-";
   fld Args.f_random_state; sep "_trs-"; fld Args.f_test_random_state;
   fld Args.f_is_classification; fld Args.f_tag].

Definition render (args : Args.t pyfloat) (item : name_item) : string :=
  match item with
  | sep s => s
  | fld k => field_str k args
  end.

Definition join (pieces : list string) : string :=
  fold_right String.append "" pieces.

Definition item_fields (items : list name_item) : list Args.field :=
  flat_map (fun item => match item with sep _ => [] | fld k => [k] end)
    items.

Definition field_eq_dec (j k : Args.field) : {j = k} + {j <> k}.
Proof. decide equality. Defined.

(** [global_*_pool(x, batch)] returns embeddings with as many features as the
    node embeddings it reduces. *)
Definition pool_contract : Prop :=
  forall f input batch y,
    pool f input batch = Ok y ->
    forall w, has_width w input -> has_width w y.

(** *** The aggregation methods

    The three methods, the string that selects each in the constructor
    (lines 174-179) and the pooling function it selects there. *)
Inductive aggregation_choice : Type :=
  | choose_sum
  | choose_mean
  | choose_max.

Definition aggregation_string (c : aggregation_choice) : string :=
  match c with
  | choose_sum => "add"
  | choose_mean => "mean"
  | choose_max => "max"
  end.

Definition pooling_of (c : aggregation_choice) : pool_fn :=
  match c with
  | choose_sum => global_add_pool
  | choose_mean => global_mean_pool
  | choose_max => global_max_pool
  end.

(** The number of graphs a batch-assignment vector names: node [i] belongs
    to graph [batch[i]], the graphs are numbered from 0. *)
Definition num_graphs (batch : list nat) : nat :=
  match batch with
  | [] => 0
  | _ :: _ => S (list_max batch)
  end.

(** [global_*_pool(x, batch)] returns one row per graph of [batch]. *)
Definition pool_per_graph_contract : Prop :=
  forall f input batch y,
    pool f input (Some batch) = Ok y -> length y = num_graphs batch.

End Model.

Arguments M {T} A.
Arguments layer {T}.

(** ** An executable implementation of the interface

    A small framework on which the model runs on concrete inputs.  Floats are
    held by their [repr]; the framework state counts the calls that consume
    it; sizes must be non-negative; layers check the width of their input. *)

Definition sizes_ok {F} (s : LayerSpec F) : bool :=
  match s with
  | Linear i o => (0 <=? i) && (0 <=? o)
  | BatchNorm1d n => 0 <=? n
  | BatchNorm n => 0 <=? n
  | GATv2Conv i o e =>
      (0 <=? i) && (0 <=? o)
      && match e with Some d => 0 <=? d | None => true end
  | _ => true
  end.

Definition width_is (w : Z) (t : Tensor) : bool :=
  forallb (fun row => Z.of_nat (length row) =? w) t.

(** Every output feature is the sum of the input features plus [shift]. *)
Definition project (out_features : Z) (shift : R) (t : Tensor) : Tensor :=
  map (fun row => repeat (Rsum row + shift)%R (Z.to_nat out_features)) t.

Definition simple_new {F} (s : LayerSpec F) (st : nat) : result (nat * nat) :=
  if sizes_ok s then Ok (st, S st) else Raise RuntimeError.

Definition simple_module_forward {F} (l : Layer F nat) (t : Tensor) (st : nat)
  : result (Tensor * nat) :=
  if negb (sizes_ok (spec l)) then Raise RuntimeError else
  match spec l with
  | Linear i o =>
      if width_is i t then Ok (project o 0 t, st) else Raise RuntimeError
  | BatchNorm1d n | BatchNorm n =>
      if width_is n t then Ok (t, st) else Raise RuntimeError
  | Dropout _ => Ok (t, S st)
  | _ => Raise RuntimeError
  end.

Definition simple_conv_forward {F} (l : Layer F nat) (t : Tensor)
    (edge_index : EdgeIndex) (edge_attr : option Tensor) (st : nat)
  : result (Tensor * nat) :=
  if negb (sizes_ok (spec l)) then Raise RuntimeError else
  match spec l with
  | GATv2Conv i o _ =>
      if width_is i t then
        Ok (project o
              match edge_attr with
              | Some a => Rsum (map Rsum a)
              | None => 0%R
              end t, st)
      else Raise RuntimeError
  | _ => Raise RuntimeError
  end.

Definition zip_with (f : R -> R -> R) (a b : list R) : list R :=
  map (fun p => f (fst p) (snd p)) (combine a b).

(** The rows of [t] whose entry in [batch] is [g]. *)
Definition rows_of (g : nat) (t : Tensor) (batch : list nat) : Tensor :=
  map fst (filter (fun p => Nat.eqb (snd p) g) (combine t batch)).

Definition pool_rows (f : pool_fn) (width : nat) (rows : Tensor) : list R :=
  match f with
  | global_add_pool => fold_left (zip_with Rplus) rows (repeat 0%R width)
  | global_mean_pool =>
      map (fun v => (v / INR (Nat.max 1 (length rows)))%R)
        (fold_left (zip_with Rplus) rows (repeat 0%R width))
  | global_max_pool =>
      match rows with
      | [] => repeat 0%R width
      | r :: rest => fold_left (zip_with Rmax) rest r
      end
  end.

Definition simple_pool (f : pool_fn) (t : Tensor) (batch : option (list nat))
  : result Tensor :=
  let batch := match batch with
               | Some b => b
               | None => repeat 0%nat (length t)
               end in
  if Nat.eqb (length batch) (length t) then
    Ok (map (fun g => pool_rows f (length (hd [] t)) (rows_of g t batch))
          (seq 0 (match batch with [] => 0 | _ => S (list_max batch) end)))
  else Raise RuntimeError.

(** The only device is the CPU. *)
Definition simple_to (device : string) (st : nat) : result nat :=
  if String.eqb device "cpu" then Ok st else Raise RuntimeError.

Definition SimpleTorch : Torch := {|
  pyfloat := string;
  FwState := nat;
  Params := nat;
  float_str := fun s => s;
  new_module := simple_new;
  module_forward := simple_module_forward;
  conv_forward := simple_conv_forward;
  pool := simple_pool;
  module_to := simple_to
|}.

(** ** Concrete inputs *)

Definition example_args : Args.t string := {|
  Args.base_model_name := "ArterialNet";
  Args.batch_size := 8;
  Args.total_epochs := 100;
  Args.hidden_channels := 4;
  Args.hidden_channels_dense := 3;
  Args.optimizer := "adam";
  Args.learning_rate := "0.001";
  Args.lr_scheduler := "plateau";
  Args.num_global_layers := 2;
  Args.num_segment_layers := 1;
  Args.num_dense_layers := 1;
  Args.aggregation := "max";
  Args.dropout := "0.2";
  Args.weighted_loss := false;
  Args.oversampling := true;
  Args.random_state := 42;
  Args.test_random_state := 7;
  Args.is_classification := true;
  Args.tag := None
|}.

(** [example_args] with another batch size. *)
Definition example_args_bs16 : Args.t string := {|
  Args.base_model_name := "ArterialNet";
  Args.batch_size := 16;
  Args.total_epochs := 100;
  Args.hidden_channels := 4;
  Args.hidden_channels_dense := 3;
  Args.optimizer := "adam";
  Args.learning_rate := "0.001";
  Args.lr_scheduler := "plateau";
  Args.num_global_layers := 2;
  Args.num_segment_layers := 1;
  Args.num_dense_layers := 1;
  Args.aggregation := "max";
  Args.dropout := "0.2";
  Args.weighted_loss := false;
  Args.oversampling := true;
  Args.random_state := 42;
  Args.test_random_state := 7;
  Args.is_classification := true;
  Args.tag := None
|}.

(** [example_args] with a base model the factory does not know. *)
Definition example_args_unet : Args.t string := {|
  Args.base_model_name := "GraphUNet";
  Args.batch_size := 8;
  Args.total_epochs := 100;
  Args.hidden_channels := 4;
  Args.hidden_channels_dense := 3;
  Args.optimizer := "adam";
  Args.learning_rate := "0.001";
  Args.lr_scheduler := "plateau";
  Args.num_global_layers := 2;
  Args.num_segment_layers := 1;
  Args.num_dense_layers := 1;
  Args.aggregation := "max";
  Args.dropout := "0.2";
  Args.weighted_loss := false;
  Args.oversampling := true;
  Args.random_state := 42;
  Args.test_random_state := 7;
  Args.is_classification := true;
  Args.tag := None
|}.

Definition example_description : DatasetDescription := {|
  num_global_features := 2;
  num_segment_node_features := 2;
  num_segment_edge_features := Some 1;
  num_dense_node_features := 2
|}.

(** One sample: two global features, a segment graph of two nodes and one
    edge with one edge feature, a dense graph of three nodes. *)
Definition example_data : Data := {|
  global_data := [[1; 2]]%R;
  segment_data := {| x := [[1; 0]; [0; 1]]%R;
                     edge_index := [(0, 1)]%nat;
                     edge_attr := Some [[1]]%R;
                     batch := Some [0; 0]%nat |};
  dense_data := {| x := [[1; 1]; [2; 0]; [0; 3]]%R;
                   edge_index := [(0, 1); (1, 2)]%nat;
                   edge_attr := None;
                   batch := Some [0; 0; 0]%nat |}
|}.

(** A graph-attention block built without an edge dimension. *)
Definition example_block : @GATv2Layer SimpleTorch :=
  @Build_GATv2Layer SimpleTorch
    (mkLayer (GATv2Conv 2 4 None) 0%nat)
    (mkLayer (BatchNorm 4) 1%nat)
    (mkLayer (Dropout "0.2"%string) 2%nat)
    None.

(** [example_data] with other edge features on both graphs. *)
Definition example_data_other_edges : Data := {|
  global_data := [[1; 2]]%R;
  segment_data := {| x := [[1; 0]; [0; 1]]%R;
                     edge_index := [(0, 1)]%nat;
                     edge_attr := Some [[7]]%R;
                     batch := Some [0; 0]%nat |};
  dense_data := {| x := [[1; 1]; [2; 0]; [0; 3]]%R;
                   edge_index := [(0, 1); (1, 2)]%nat;
                   edge_attr := Some [[4]; [5]]%R;
                   batch := Some [0; 0; 0]%nat |}
|}.

(** Two samples of global features with the graphs of one sample. *)
Definition example_data_two_samples : Data := {|
  global_data := [[1; 2]; [3; 4]]%R;
  segment_data := {| x := [[1; 0]; [0; 1]]%R;
                     edge_index := [(0, 1)]%nat;
                     edge_attr := Some [[1]]%R;
                     batch := Some [0; 0]%nat |};
  dense_data := {| x := [[1; 1]; [2; 0]; [0; 3]]%R;
                   edge_index := [(0, 1); (1, 2)]%nat;
                   edge_attr := None;
                   batch := Some [0; 0; 0]%nat |}
|}.

(** * Properties *)

Section Properties.
Context {T : Torch}.

Notation "v <- m ;; k" := (bind m (fun v => k))
  (at level 100, m at next level, right associativity).

(** ** The state-and-exception monad *)

Lemma bind_Ok {A B} (m : M A) (k : A -> M B) st b st' :
  bind m k st = Ok (b, st') ->
  exists a st1, m st = Ok (a, st1) /\ k a st1 = Ok (b, st').
Proof.
  unfold bind. destruct (m st) as [[a st1]|e]; [|discriminate].
  intros H. exists a, st1. auto.
Qed.


Lemma ret_Ok {A} (a b : A) st st' :
  ret a st = Ok (b, st') -> b = a /\ st' = st.
Proof. unfold ret. intros [= -> ->]. auto. Qed.

Lemma lift_Ok {A} (r : result A) st a st' :
  lift r st = Ok (a, st') -> r = Ok a /\ st' = st.
Proof. unfold lift. destruct r; intros [= -> ->]; auto. Qed.

Lemma new_Ok s st l st' :
  new s st = Ok (l, st') -> spec l = s.
Proof.
  unfold new. intros H.
  apply bind_Ok in H as (p & st1 & _ & H).
  apply ret_Ok in H as [-> _]. reflexivity.
Qed.

Lemma mapM_Ok {A B} (f : A -> M B) l st bs st' :
  mapM f l st = Ok (bs, st') ->
  Forall2 (fun a b => exists s1 s2, f a s1 = Ok (b, s2)) l bs.
Proof.
  revert st bs. induction l as [|a l IH]; simpl; intros st bs H.
  - apply ret_Ok in H as [-> _]. constructor.
  - apply bind_Ok in H as (b & st1 & Hb & H).
    apply bind_Ok in H as (bs' & st2 & Hbs & H).
    apply ret_Ok in H as [-> ->].
    constructor; [exists st, st1; exact Hb | eapply IH; exact Hbs].
Qed.

(** ** What the constructors build *)

Lemma global_block_Ok gin hd p idx st blk st' :
  global_block gin hd p idx st = Ok (blk, st') ->
  exists l1 l2 l3 l4,
    blk = Sequential [l1; l2; l3; l4]
    /\ spec l1 = Linear (if idx =? 0 then gin else hd) hd
    /\ spec l2 = LeakyReLU 0.2
    /\ spec l3 = BatchNorm1d hd
    /\ spec l4 = Dropout p.
Proof.
  unfold global_block. intros H.
  apply bind_Ok in H as (l1 & s1 & H1 & H).
  apply bind_Ok in H as (l2 & s2 & H2 & H).
  apply bind_Ok in H as (l3 & s3 & H3 & H).
  apply bind_Ok in H as (l4 & s4 & H4 & H).
  apply ret_Ok in H as [-> ->].
  exists l1, l2, l3, l4. eauto 10 using new_Ok.
Qed.

Lemma GATv2Layer_init_Ok i o e p st l st' :
  GATv2Layer_init i o e p st = Ok (l, st') ->
  spec (conv l) = GATv2Conv i o e /\ spec (bn l) = BatchNorm o
  /\ spec (gat_dropout l) = Dropout p /\ edge_dim l = e.
Proof.
  unfold GATv2Layer_init. intros H.
  apply bind_Ok in H as (l1 & s1 & H1 & H).
  apply bind_Ok in H as (l2 & s2 & H2 & H).
  apply bind_Ok in H as (l3 & s3 & H3 & H).
  apply ret_Ok in H as [-> ->]. simpl.
  eauto 10 using new_Ok.
Qed.

Lemma init_Ok gin sn se dn hd hdd out ngl nsl ndl agg p cls st m st' :
  ArterialNet_init gin sn se dn hd hdd out ngl nsl ndl agg p cls st
    = Ok (m, st') ->
  exists s1 s2 s3 s4 s5 s6,
    (if 0 <? ngl then
       exists path, mapM (global_block gin hd p) (range ngl) s1 = Ok (path, s2)
                    /\ global_path m = Some path
     else global_path m = None)
    /\ (if 0 <? nsl then
          exists path,
            mapM (fun idx => GATv2Layer_init (if idx =? 0 then sn else hd)
                               hd se p) (range nsl) s3 = Ok (path, s4)
            /\ segment_path m = Some path
        else segment_path m = None)
    /\ (if 0 <? ndl then
          exists path,
            mapM (fun idx => GATv2Layer_init (if idx =? 0 then dn else hdd)
                               hdd None p) (range ndl) s5 = Ok (path, s6)
            /\ dense_path m = Some path
        else dense_path m = None)
    /\ (if cls then
          exists l1 l2, output_layer m = Sequential [l1; l2]
            /\ spec l1 = Linear (hd * py_sum [0 <? ngl; 0 <? nsl]
                                 + hdd * py_sum [0 <? ndl]) out
            /\ spec l2 = Softmax 1
        else
          exists l, output_layer m = Single l
            /\ spec l = Linear (hd * py_sum [0 <? ngl; 0 <? nsl; 0 <? ndl])
                          out)
    /\ aggregation m =
         (if String.eqb agg "add" then Some global_add_pool
          else if String.eqb agg "mean" then Some global_mean_pool
          else if String.eqb agg "max" then Some global_max_pool
          else None)
    /\ is_classification m = cls /\ hidden_dim m = hd
    /\ hidden_dim_dense m = hdd /\ out_dim m = out.
Proof.
  unfold ArterialNet_init. intros H.
  apply bind_Ok in H as (gp & s2 & Hg & H).
  apply bind_Ok in H as (sp & s4 & Hs & H).
  apply bind_Ok in H as (dp & s6 & Hd & H).
  apply bind_Ok in H as (ol & s8 & Ho & H).
  apply ret_Ok in H as [-> ->]. simpl.
  exists st, s2, s2, s4, s4, s6.
  repeat split.
  - destruct (0 <? ngl).
    + apply bind_Ok in Hg as (path & s & Hp & Hg).
      apply ret_Ok in Hg as [-> ->]. eauto.
    + apply ret_Ok in Hg as [-> _]. reflexivity.
  - destruct (0 <? nsl).
    + apply bind_Ok in Hs as (path & s & Hp & Hs).
      apply ret_Ok in Hs as [-> ->]. eauto.
    + apply ret_Ok in Hs as [-> _]. reflexivity.
  - destruct (0 <? ndl).
    + apply bind_Ok in Hd as (path & s & Hp & Hd).
      apply ret_Ok in Hd as [-> ->]. eauto.
    + apply ret_Ok in Hd as [-> _]. reflexivity.
  - destruct cls.
    + apply bind_Ok in Ho as (l1 & s & H1 & Ho).
      apply bind_Ok in Ho as (l2 & s' & H2 & Ho).
      apply ret_Ok in Ho as [-> ->]. eauto 10 using new_Ok.
    + apply bind_Ok in Ho as (l & s & H1 & Ho).
      apply ret_Ok in Ho as [-> ->]. eauto 10 using new_Ok.
Qed.

Lemma range_lookup n i idx :
  range n !! i = Some idx -> idx = Z.of_nat i.
Proof.
  unfold range. rewrite list_lookup_fmap.
  destruct (seq 0 (Z.to_nat n) !! i) as [j|] eqn:E; [|discriminate].
  apply lookup_seq in E as [-> _]. intros [= <-]. reflexivity.
Qed.

Lemma range_length n : length (range n) = Z.to_nat n.
Proof. unfold range. rewrite length_map, length_seq. reflexivity. Qed.

(** ** The global branch *)


(** ** The graph-attention block *)

Lemma has_width_leaky_relu w slope t :
  has_width w t -> has_width w (leaky_relu slope t).
Proof.
  unfold has_width, leaky_relu. intros H.
  apply Forall_map. eapply Forall_impl; [exact H|].
  intros row Hrow. simpl. rewrite length_map. exact Hrow.
Qed.

(** C4: a block whose [edge_dim] is [None] returns the same result, and
    leaves the same framework state, whatever edge features are passed. *)
Theorem GATv2Layer_forward_ignores_edge_attr
    (self : GATv2Layer) x0 edge_index edge_attr1 edge_attr2 s :
  edge_dim self = None ->
  GATv2Layer_forward self x0 edge_index edge_attr1 s
  = GATv2Layer_forward self x0 edge_index edge_attr2 s.
Proof.
  intros H. unfold GATv2Layer_forward. rewrite H. reflexivity.
Qed.

(** C8: a block built by [GATv2Layer(in_channels, out_channels, edge_dim,
    dropout_rate)] holds a [GATv2Conv], a [BatchNorm(out_channels)] and a
    [Dropout(dropout_rate)]; [forward] calls the convolution (with the edge
    features exactly when [edge_dim] is not [None]), then the leaky
    rectification of slope 0.2, then the batch normalisation, then the
    dropout, each on the result of the previous one; what it returns has
    one row per node and [out_channels] features per row. *)
Theorem GATv2Layer_forward_stages
    in_channels out_channels e dropout_rate st0 self st1 :
  GATv2Conv_contract -> shape_preserving_contract ->
  GATv2Layer_init in_channels out_channels e dropout_rate st0
    = Ok (self, st1) ->
  (spec (conv self) = GATv2Conv in_channels out_channels e
   /\ spec (bn self) = BatchNorm out_channels
   /\ spec (gat_dropout self) = Dropout dropout_rate
   /\ edge_dim self = e)
  /\ (forall x0 edge_index edge_attr s,
        GATv2Layer_forward self x0 edge_index edge_attr s =
        (x1 <- conv_forward (conv self) x0 edge_index
                 (match e with Some _ => edge_attr | None => None end) ;;
         x2 <- ret (leaky_relu 0.2 x1) ;;
         x3 <- module_forward (bn self) x2 ;;
         x4 <- module_forward (gat_dropout self) x3 ;;
         ret x4) s)
  /\ (forall x0 edge_index edge_attr s y s',
        GATv2Layer_forward self x0 edge_index edge_attr s = Ok (y, s') ->
        exists x1 x3 s1 s2,
          conv_forward (conv self) x0 edge_index
            (match e with Some _ => edge_attr | None => None end) s = Ok (x1, s1)
          /\ module_forward (bn self) (leaky_relu 0.2 x1) s1 = Ok (x3, s2)
          /\ module_forward (gat_dropout self) x3 s2 = Ok (y, s')
          /\ length y = length x0
          /\ has_width out_channels y).
Proof.
  intros Hconv Hshape Hinit.
  apply GATv2Layer_init_Ok in Hinit as (Ec & Eb & Ed & Ee).
  assert (Hfwd : forall x0 edge_index edge_attr s,
        GATv2Layer_forward self x0 edge_index edge_attr s =
        (x1 <- conv_forward (conv self) x0 edge_index
                 (match e with Some _ => edge_attr | None => None end) ;;
         x2 <- ret (leaky_relu 0.2 x1) ;;
         x3 <- module_forward (bn self) x2 ;;
         x4 <- module_forward (gat_dropout self) x3 ;;
         ret x4) s).
  { intros x0 ei ea s. unfold GATv2Layer_forward, layer_forward.
    rewrite Ee, Eb, Ed. destruct e; reflexivity. }
  split; [auto|]. split; [exact Hfwd|].
  intros x0 ei ea s y s' H. rewrite Hfwd in H.
  apply bind_Ok in H as (x1 & s1 & H1 & H).
  apply bind_Ok in H as (x2 & s1' & H2 & H).
  apply ret_Ok in H2 as [-> ->].
  apply bind_Ok in H as (x3 & s2 & H3 & H).
  apply bind_Ok in H as (x4 & s3 & H4 & H).
  apply ret_Ok in H as [-> ->].
  exists x1, x3, s1, s2. repeat (split; [assumption|]).
  destruct (Hconv _ _ _ _ _ _ _ _ _ _ Ec H1) as [L1 W1].
  destruct (Hshape (bn self) _ _ _ _ ltac:(rewrite Eb; exact I) H3)
    as [L3 W3].
  destruct (Hshape (gat_dropout self) _ _ _ _ ltac:(rewrite Ed; exact I) H4)
    as [L4 W4].
  split.
  - rewrite L4, L3. unfold leaky_relu. rewrite length_map. exact L1.
  - apply W4, W3, has_width_leaky_relu, W1.
Qed.

(** ** Concatenation of the branch embeddings *)

Lemma zip_rows_length a b :
  length a = length b -> length (zip_rows a b) = length a.
Proof.
  revert b. induction a as [|r a IH]; intros [|s b]; simpl; try discriminate.
  - reflexivity.
  - intros [= H]. rewrite IH; auto.
Qed.

Lemma zip_rows_nth a b i :
  length a = length b -> (i < length a)%nat ->
  nth i (zip_rows a b) [] = (nth i a [] ++ nth i b [])%list.
Proof.
  revert b i. induction a as [|r a IH]; intros [|s b] i; simpl;
    try discriminate; try lia.
  intros [= H] Hi. destruct i as [|i]; [reflexivity|].
  apply IH; [exact H | lia].
Qed.

(** A successful [torch.cat(..., dim=1)] keeps the number of rows, and its
    row [i] is the rows [i] of the arguments, in the order of the list. *)
Lemma torch_cat_dim1_rows tensors total :
  torch_cat_dim1 tensors = Ok total ->
  Forall (fun t => length t = length total) tensors
  /\ forall i, (i < length total)%nat ->
       nth i total [] = concat (map (fun t => nth i t []) tensors).
Proof.
  revert total. induction tensors as [|t rest IH]; intros total H.
  - discriminate.
  - simpl in H. destruct rest as [|t' rest'].
    + injection H as ->. split; [repeat constructor|].
      intros i _. simpl. rewrite app_nil_r. reflexivity.
    + destruct (torch_cat_dim1 (t' :: rest')) as [u|] eqn:E;
        [|discriminate].
      simpl in H. destruct (Nat.eqb (length t) (length u)) eqn:El;
        [|discriminate].
      injection H as <-. apply Nat.eqb_eq in El.
      destruct (IH u eq_refl) as [Hlen Hrows].
      rewrite zip_rows_length by exact El. split.
      * constructor; [reflexivity|].
        eapply Forall_impl; [exact Hlen|]. simpl. intros; congruence.
      * intros i Hi. rewrite zip_rows_nth by assumption.
        rewrite Hrows by lia. reflexivity.
Qed.

Lemma not_None_rows (g s d : option Tensor) i :
  concat (map (fun t => nth i t []) (not_None [g; s; d]))
  = (features_at i g ++ features_at i s ++ features_at i d)%list.
Proof.
  destruct g, s, d; simpl; rewrite ?app_nil_r; reflexivity.
Qed.

Lemma forward_global_None self data s g s' :
  forward_global self data s = Ok (g, s') ->
  (g = None <-> global_path self = None).
Proof.
  unfold forward_global. destruct (global_path self).
  - intros H. apply bind_Ok in H as (y & s1 & _ & H).
    apply ret_Ok in H as [-> _]. split; discriminate.
  - intros H. apply ret_Ok in H as [-> _]. split; reflexivity.
Qed.

Lemma forward_segment_None self data s g s' :
  forward_segment self data s = Ok (g, s') ->
  (g = None <-> segment_path self = None).
Proof.
  unfold forward_segment. destruct (segment_path self).
  - intros H. apply bind_Ok in H as (y & s1 & _ & H).
    apply bind_Ok in H as (y' & s2 & _ & H).
    apply ret_Ok in H as [-> _]. split; discriminate.
  - intros H. apply ret_Ok in H as [-> _]. split; reflexivity.
Qed.

Lemma forward_dense_None self data s g s' :
  forward_dense self data s = Ok (g, s') ->
  (g = None <-> dense_path self = None).
Proof.
  unfold forward_dense. destruct (dense_path self).
  - intros H. apply bind_Ok in H as (y & s1 & _ & H).
    apply bind_Ok in H as (y' & s2 & _ & H).
    apply ret_Ok in H as [-> _]. split; discriminate.
  - intros H. apply ret_Ok in H as [-> _]. split; reflexivity.
Qed.

(** The steps of a [forward] call that returns. *)
Lemma forward_Ok self data s out s' :
  forward self data s = Ok (out, s') ->
  exists g sg d s1 s2 s3 total,
    forward_global self data s = Ok (g, s1)
    /\ forward_segment self data s1 = Ok (sg, s2)
    /\ forward_dense self data s2 = Ok (d, s3)
    /\ torch_cat_dim1 (not_None [g; sg; d]) = Ok total
    /\ NNModule_forward (output_layer self) total s3 = Ok (out, s').
Proof.
  unfold forward. intros H.
  apply bind_Ok in H as (g & s1 & Hg & H).
  apply bind_Ok in H as (sg & s2 & Hs & H).
  apply bind_Ok in H as (d & s3 & Hd & H).
  apply bind_Ok in H as (total & s4 & Ht & H).
  apply lift_Ok in Ht as [Ht ->].
  exists g, sg, d, s1, s2, s3, total. auto.
Qed.

(** C7: in a [forward] call that returns, the three branches are run in
    the order global, segment, dense; a branch yields [None] exactly when
    its path is [None]; the fused features are the concatenation of the
    embeddings that are not [None], so that every fused row is the global
    row, then the segment row, then the dense row, a disabled branch adding
    nothing; the fusion head is applied to the fused features. *)
Theorem forward_concatenates_active_branches self data s out s' :
  forward self data s = Ok (out, s') ->
  exists global_features segment_x dense_x s1 s2 s3 total_features,
    forward_global self data s = Ok (global_features, s1)
    /\ forward_segment self data s1 = Ok (segment_x, s2)
    /\ forward_dense self data s2 = Ok (dense_x, s3)
    /\ (global_features = None <-> global_path self = None)
    /\ (segment_x = None <-> segment_path self = None)
    /\ (dense_x = None <-> dense_path self = None)
    /\ torch_cat_dim1 (not_None [global_features; segment_x; dense_x])
       = Ok total_features
    /\ (forall i, (i < length total_features)%nat ->
          nth i total_features []
          = (features_at i global_features ++ features_at i segment_x
             ++ features_at i dense_x)%list)
    /\ NNModule_forward (output_layer self) total_features s3
       = Ok (out, s').
Proof.
  intros H.
  apply forward_Ok in H as (g & sg & d & s1 & s2 & s3 & total
                            & Hg & Hs & Hd & Ht & Ho).
  exists g, sg, d, s1, s2, s3, total.
  repeat (split; [assumption|]).
  split; [eapply forward_global_None; eassumption|].
  split; [eapply forward_segment_None; eassumption|].
  split; [eapply forward_dense_None; eassumption|].
  split; [assumption|]. split; [|assumption].
  intros i Hi. destruct (torch_cat_dim1_rows _ _ Ht) as [_ Hrows].
  rewrite Hrows by exact Hi. apply not_None_rows.
Qed.

(** ** get_model *)

Lemma to_device_Ok device st u st' :
  to_device device st = Ok (u, st') -> module_to device st = Ok st'.
Proof.
  unfold to_device. destruct (module_to device st); [|discriminate].
  intros [= _ ->]. reflexivity.
Qed.

Lemma get_model_Ok args desc device st m name st' :
  get_model args desc device st = Ok ((m, name), st') ->
  Args.base_model_name args = "ArterialNet"
  /\ model_name args = Ok name
  /\ exists st1,
       ArterialNet_init
         (num_global_features desc) (num_segment_node_features desc)
         (num_segment_edge_features desc) (num_dense_node_features desc)
         (Args.hidden_channels args) (Args.hidden_channels_dense args)
         (if Args.is_classification args then 2 else 1)
         (Args.num_global_layers args) (Args.num_segment_layers args)
         (Args.num_dense_layers args) (Args.aggregation args)
         (Args.dropout args) (Args.is_classification args) st
       = Ok (m, st1)
       /\ module_to device st1 = Ok st'.
Proof.
  unfold get_model. intros H.
  apply bind_Ok in H as (n & s1 & Hn & H).
  apply lift_Ok in Hn as [Hn ->].
  apply bind_Ok in H as (model & s2 & Hm & H).
  destruct (String.eqb (Args.base_model_name args) "ArterialNet") eqn:E.
  - apply bind_Ok in Hm as (m' & s3 & Hi & Hm).
    apply bind_Ok in Hm as (u & s4 & Hto & Hm).
    apply ret_Ok in Hm as [-> ->]. apply ret_Ok in H as [[= -> ->] ->].
    apply String.eqb_eq in E. apply to_device_Ok in Hto. eauto.
  - apply ret_Ok in Hm as [-> ->]. discriminate.
Qed.

(** ** The fusion head *)

Lemma Rsum_map_exp_pos row : row <> [] -> (0 < Rsum (map exp row))%R.
Proof.
  destruct row as [|v row]; [congruence|]. intros _. simpl.
  assert (0 <= Rsum (map exp row))%R.
  { induction row as [|w row IH]; simpl; [lra|].
    pose proof (exp_pos w). lra. }
  pose proof (exp_pos v). lra.
Qed.

Lemma Rsum_map_div (f : R -> R) (c : R) row :
  Rsum (map (fun v => (f v / c)%R) row) = (Rsum (map f row) / c)%R.
Proof.
  induction row as [|v row IH]; simpl.
  - unfold Rdiv. rewrite Rmult_0_l. reflexivity.
  - rewrite IH. unfold Rdiv. rewrite Rmult_plus_distr_r. reflexivity.
Qed.

(** A row of [Softmax(dim=1)] is a probability vector. *)
Lemma softmax_row_probability row :
  row <> [] ->
  Forall (fun v => (0 <= v)%R) (softmax_row row)
  /\ Rsum (softmax_row row) = 1%R.
Proof.
  intros Hne. pose proof (Rsum_map_exp_pos row Hne) as Hpos.
  unfold softmax_row. split.
  - apply Forall_map. apply Forall_forall. intros v _. simpl.
    apply Rlt_le, Rdiv_lt_0_compat; [apply exp_pos | exact Hpos].
  - rewrite (Rsum_map_div exp). unfold Rdiv. apply Rinv_r. lra.
Qed.

(** C6: for a model returned by [get_model] and a [forward] call that
    returns.  In classification mode the output has one row per sample of
    the fused features and every row has two entries, all non-negative,
    that sum to 1.  In regression mode the output layer is a bare linear
    layer with one output feature, the value [forward] returns is what this
    layer returns (nothing is applied after it), and it has one row per
    sample with exactly one value. *)
Theorem fusion_head_output args desc device st0 m name st1 data s out s' :
  Linear_contract ->
  get_model args desc device st0 = Ok ((m, name), st1) ->
  forward m data s = Ok (out, s') ->
  exists total_features s3,
    (exists global_features segment_x dense_x,
       torch_cat_dim1 (not_None [global_features; segment_x; dense_x])
       = Ok total_features)
    /\ length out = length total_features
    /\ (Args.is_classification args = true ->
          Forall (fun row =>
                    length row = 2%nat
                    /\ Forall (fun v => (0 <= v)%R) row
                    /\ Rsum row = 1%R) out)
    /\ (Args.is_classification args = false ->
          (exists l in_features,
             output_layer m = Single l
             /\ spec l = Linear in_features 1
             /\ module_forward l total_features s3 = Ok (out, s'))
          /\ Forall (fun row => length row = 1%nat) out).
Proof.
  intros Hlin Hget Hfwd.
  apply get_model_Ok in Hget as (_ & _ & st_init & Hinit & _).
  apply init_Ok in Hinit
    as (_ & _ & _ & _ & _ & _ & _ & _ & _ & Hout & _).
  apply forward_Ok in Hfwd as (g & sg & d & s1 & s2 & s3 & total
                               & _ & _ & _ & Ht & Ho).
  exists total, s3. split; [eauto|].
  destruct (Args.is_classification args).
  - destruct Hout as (l1 & l2 & Eo & E1 & E2). rewrite Eo in Ho.
    simpl in Ho. unfold layer_forward in Ho. rewrite E1, E2 in Ho.
    apply bind_Ok in Ho as (y & s4 & Hy & Ho).
    apply bind_Ok in Ho as (z & s5 & Hz & Ho).
    apply ret_Ok in Hz as [-> ->]. apply ret_Ok in Ho as [-> ->].
    destruct (Hlin _ _ _ _ _ _ _ E1 Hy) as [Hlen Hw].
    split; [|split; [|discriminate]].
    + unfold softmax_dim1. rewrite length_map. exact Hlen.
    + intros _. unfold softmax_dim1. apply Forall_map.
      eapply Forall_impl; [exact Hw|]. intros row Hrow. simpl in *.
      assert (Hl : length row = 2%nat) by lia.
      split; [unfold softmax_row; rewrite length_map; exact Hl|].
      apply softmax_row_probability. destruct row; [discriminate|congruence].
  - destruct Hout as (l & Eo & E1). rewrite Eo in Ho.
    simpl in Ho. unfold layer_forward in Ho. rewrite E1 in Ho.
    destruct (Hlin _ _ _ _ _ _ _ E1 Ho) as [Hlen Hw].
    split; [exact Hlen|]. split; [discriminate|].
    intros _. split; [eauto 6|].
    eapply Forall_impl; [exact Hw|]. intros row Hrow. simpl in *. lia.
Qed.

(** ** The pooling function *)

(** C5: for each of the three aggregation methods (sum, mean, max; the
    constructor spells them ["add"], ["mean"], ["max"]) the constructor
    selects the corresponding pooling function ([global_add_pool],
    [global_mean_pool], [global_max_pool]).  In [forward] the segment branch
    and the dense branch both call this same function, on the node embeddings
    their layers returned and on the batch-assignment vector of their graph;
    what it returns is the embedding of the branch, with one row per graph of
    the batch vector. *)
Theorem aggregation_selected_and_shared
    (c : aggregation_choice)
    gin sn se dn hd hdd out ngl nsl ndl p cls st m st' :
  pool_per_graph_contract ->
  ArterialNet_init gin sn se dn hd hdd out ngl nsl ndl
    (aggregation_string c) p cls st = Ok (m, st') ->
  aggregation m = Some (pooling_of c)
  /\ forall data s,
       (forall path, segment_path m = Some path ->
          forward_segment m data s =
          (segment_x <- graph_loop path (x (segment_data data))
                          (edge_index (segment_data data))
                          (edge_attr (segment_data data)) ;;
           pooled <- lift (pool (pooling_of c) segment_x
                             (batch (segment_data data))) ;;
           ret (Some pooled)) s
          /\ forall embedding s',
               forward_segment m data s = Ok (embedding, s') ->
               exists nodes pooled,
                 graph_loop path (x (segment_data data))
                   (edge_index (segment_data data))
                   (edge_attr (segment_data data)) s = Ok (nodes, s')
                 /\ pool (pooling_of c) nodes (batch (segment_data data))
                    = Ok pooled
                 /\ embedding = Some pooled
                 /\ forall b, batch (segment_data data) = Some b ->
                              length pooled = num_graphs b)
       /\ (forall path, dense_path m = Some path ->
             forward_dense m data s =
             (dense_x <- graph_loop path (x (dense_data data))
                           (edge_index (dense_data data)) None ;;
              pooled <- lift (pool (pooling_of c) dense_x
                                (batch (dense_data data))) ;;
              ret (Some pooled)) s
             /\ forall embedding s',
                  forward_dense m data s = Ok (embedding, s') ->
                  exists nodes pooled,
                    graph_loop path (x (dense_data data))
                      (edge_index (dense_data data)) None s = Ok (nodes, s')
                    /\ pool (pooling_of c) nodes (batch (dense_data data))
                       = Ok pooled
                    /\ embedding = Some pooled
                    /\ forall b, batch (dense_data data) = Some b ->
                                 length pooled = num_graphs b).
Proof.
  intros Hpool H.
  apply init_Ok in H as (_ & _ & _ & _ & _ & _ & _ & _ & _ & _ & Ha & _).
  assert (Hf : aggregation m = Some (pooling_of c))
    by (destruct c; exact Ha).
  split; [exact Hf|].
  intros data s. split; intros path Hp.
  - assert (E : forall t, forward_segment m data t =
              (segment_x <- graph_loop path (x (segment_data data))
                              (edge_index (segment_data data))
                              (edge_attr (segment_data data)) ;;
               pooled <- lift (pool (pooling_of c) segment_x
                                 (batch (segment_data data))) ;;
               ret (Some pooled)) t).
    { intros t. unfold forward_segment, call_aggregation.
      rewrite Hp, Hf. reflexivity. }
    split; [apply E|].
    intros embedding s' Hrun. rewrite E in Hrun.
    apply bind_Ok in Hrun as (nodes & s1 & Hn & Hrun).
    apply bind_Ok in Hrun as (pooled & s2 & Hy & Hrun).
    apply lift_Ok in Hy as [Hy ->]. apply ret_Ok in Hrun as [-> ->].
    exists nodes, pooled. repeat (split; [auto|]).
    intros b Hb. rewrite Hb in Hy. apply (Hpool _ _ _ _ Hy).
  - assert (E : forall t, forward_dense m data t =
              (dense_x <- graph_loop path (x (dense_data data))
                            (edge_index (dense_data data)) None ;;
               pooled <- lift (pool (pooling_of c) dense_x
                                 (batch (dense_data data))) ;;
               ret (Some pooled)) t).
    { intros t. unfold forward_dense, call_aggregation.
      rewrite Hp, Hf. reflexivity. }
    split; [apply E|].
    intros embedding s' Hrun. rewrite E in Hrun.
    apply bind_Ok in Hrun as (nodes & s1 & Hn & Hrun).
    apply bind_Ok in Hrun as (pooled & s2 & Hy & Hrun).
    apply lift_Ok in Hy as [Hy ->]. apply ret_Ok in Hrun as [-> ->].
    exists nodes, pooled. repeat (split; [auto|]).
    intros b Hb. rewrite Hb in Hy. apply (Hpool _ _ _ _ Hy).
Qed.

(** ** The fan-in of the fusion head *)

Lemma init_paths gin sn se dn hd hdd out ngl nsl ndl agg p cls st m st' :
  ArterialNet_init gin sn se dn hd hdd out ngl nsl ndl agg p cls st
    = Ok (m, st') ->
  branch_width (global_path m) hd = hd * Z.b2z (0 <? ngl)
  /\ branch_width (segment_path m) hd = hd * Z.b2z (0 <? nsl)
  /\ (forall w, branch_width (dense_path m) w = w * Z.b2z (0 <? ndl)).
Proof.
  intros H.
  apply init_Ok in H as (s1 & s2 & s3 & s4 & s5 & s6 & Hg & Hs & Hd & _).
  repeat split.
  - destruct (0 <? ngl); [destruct Hg as (? & _ & ->)|rewrite Hg]; simpl; lia.
  - destruct (0 <? nsl); [destruct Hs as (? & _ & ->)|rewrite Hs]; simpl; lia.
  - intros w.
    destruct (0 <? ndl); [destruct Hd as (? & _ & ->)|rewrite Hd]; simpl; lia.
Qed.

(** In classification mode the fan-in is the sum of the hidden widths of
    the active branches, the dense branch counted with its own width. *)
Lemma fan_in_classification
    gin sn se dn hd hdd out ngl nsl ndl agg p st m st' :
  ArterialNet_init gin sn se dn hd hdd out ngl nsl ndl agg p true st
    = Ok (m, st') ->
  fan_in (output_layer m) = Some (active_width m).
Proof.
  intros H. pose proof (init_paths _ _ _ _ _ _ _ _ _ _ _ _ _ _ _ _ H)
    as (Eg & Es & Ed).
  apply init_Ok in H as (_ & _ & _ & _ & _ & _ & _ & _ & _ & Ho & _ & _
                         & Ehd & Ehdd & _).
  destruct Ho as (l1 & l2 & -> & E1 & _). simpl. rewrite E1.
  unfold active_width. rewrite Ehd, Ehdd, Eg, Es, Ed.
  f_equal. unfold py_sum. simpl. lia.
Qed.

(** In regression mode the fan-in counts every active branch, the dense
    one included, with [hidden_dim]. *)
Lemma fan_in_regression
    gin sn se dn hd hdd out ngl nsl ndl agg p st m st' :
  ArterialNet_init gin sn se dn hd hdd out ngl nsl ndl agg p false st
    = Ok (m, st') ->
  fan_in (output_layer m)
  = Some (branch_width (global_path m) hd + branch_width (segment_path m) hd
          + branch_width (dense_path m) hd).
Proof.
  intros H. pose proof (init_paths _ _ _ _ _ _ _ _ _ _ _ _ _ _ _ _ H)
    as (Eg & Es & Ed).
  apply init_Ok in H as (_ & _ & _ & _ & _ & _ & _ & _ & _ & Ho & _).
  destruct Ho as (l & -> & E1). simpl. rewrite E1.
  rewrite Eg, Es, Ed. f_equal. unfold py_sum. simpl. lia.
Qed.

(** ** Construction without any branch *)

(** C2, as the code has it: the constructor has no guard against the three
    layer counts being zero.  Whenever the framework accepts the layers of
    the fusion head, with a linear layer of zero input features,
    construction returns a model whose three paths are [None] and whose
    fan-in is 0; every [forward] call on this model raises, at the
    concatenation of an empty list. *)
Theorem no_branch_fails_at_forward
    gin sn se dn hd hdd out agg p cls st :
  (forall s, exists q s', new_module (Linear 0 out) s = Ok (q, s')) ->
  (cls = true ->
   forall s, exists q s', new_module (Softmax 1) s = Ok (q, s')) ->
  exists m st',
    ArterialNet_init gin sn se dn hd hdd out 0 0 0 agg p cls st
      = Ok (m, st')
    /\ global_path m = None /\ segment_path m = None
    /\ dense_path m = None
    /\ fan_in (output_layer m) = Some 0
    /\ forall data s, forward m data s = Raise RuntimeError.
Proof.
  intros Hlin Hsm.
  assert (E0 : hd * py_sum [0 <? 0; 0 <? 0] + hdd * py_sum [0 <? 0] = 0)
    by (unfold py_sum; simpl; lia).
  assert (E1 : hd * py_sum [0 <? 0; 0 <? 0; 0 <? 0] = 0)
    by (unfold py_sum; simpl; lia).
  unfold ArterialNet_init. rewrite E0, E1. clear E0 E1. simpl.
  destruct cls.
  - destruct (Hlin st) as (q1 & s1 & E1).
    destruct (Hsm eq_refl s1) as (q2 & s2 & E2).
    eexists _, s2. split.
    + unfold bind, ret, new. unfold bind, ret. rewrite E1, E2. reflexivity.
    + simpl. repeat (split; [reflexivity|]). intros data s. reflexivity.
  - destruct (Hlin st) as (q1 & s1 & E1).
    eexists _, s1. split.
    + unfold bind, ret, new. unfold bind, ret. rewrite E1. reflexivity.
    + simpl. repeat (split; [reflexivity|]). intros data s. reflexivity.
Qed.

(** ** The model name *)

Lemma append_cons ch (a b : string) : String ch a ++ b = String ch (a ++ b).
Proof. reflexivity. Qed.

Lemma append_assoc (a b c : string) : (a ++ b) ++ c = a ++ (b ++ c).
Proof.
  induction a as [|ch a IH]; [reflexivity|].
  rewrite !append_cons, IH. reflexivity.
Qed.

Lemma append_nil_r (a : string) : a ++ "" = a.
Proof.
  induction a as [|ch a IH]; [reflexivity|].
  rewrite append_cons, IH. reflexivity.
Qed.

Lemma append_length (a b : string) :
  String.length (a ++ b) = (String.length a + String.length b)%nat.
Proof.
  induction a as [|ch a IH]; [reflexivity|].
  rewrite append_cons. simpl. rewrite IH. reflexivity.
Qed.

Lemma append_inv_head (a b c : string) : a ++ b = a ++ c -> b = c.
Proof.
  induction a as [|ch a IH]; [auto|].
  rewrite !append_cons. intros [= H]. auto.
Qed.

Lemma append_inv_tail (a b c : string) : a ++ c = b ++ c -> a = b.
Proof.
  revert b. induction a as [|ch a IH]; intros [|ch' b];
    rewrite ?append_cons; intros H.
  - reflexivity.
  - apply (f_equal String.length) in H. simpl in H.
    rewrite !append_length in H. simpl in H. lia.
  - apply (f_equal String.length) in H. simpl in H.
    rewrite !append_length in H. simpl in H. lia.
  - injection H as -> H. f_equal. apply IH. exact H.
Qed.

(** The name is the pieces of [name_items], in their order. *)
Lemma model_name_render args :
  model_name args = Ok (join (map (render args) name_items)).
Proof.
  unfold model_name. cbn [format result_bind].
  cbn -[String.append str_int str_bool].
  destruct (Args.is_classification args), (Args.tag args); simpl;
    repeat (rewrite append_assoc || rewrite append_cons);
    rewrite ?append_nil_r; reflexivity.
Qed.

Lemma field_str_eq k (a b : Args.t pyfloat) :
  Args.get k a = Args.get k b -> field_str k a = field_str k b.
Proof. destruct k; simpl; intros [= H]; rewrite H; reflexivity. Qed.

Lemma str_bool_inj b1 b2 : str_bool b1 = str_bool b2 -> b1 = b2.
Proof. destruct b1, b2; simpl; congruence. Qed.

Lemma str_int_inj n1 n2 : str_int n1 = str_int n2 -> n1 = n2.
Proof. unfold str_int. apply (inj pretty). Qed.

(** Distinct values of a hyperparameter contribute distinct texts, given
    that [str] is injective on floats. *)
Lemma field_str_inj k (a b : Args.t pyfloat) :
  (forall u v, float_str u = float_str v -> u = v) ->
  field_str k a = field_str k b -> Args.get k a = Args.get k b.
Proof.
  intros Hfloat.
  destruct k; simpl; intros H;
    try (f_equal; first [ exact H | apply str_int_inj, H
                        | apply str_bool_inj, H | apply Hfloat, H ]).
  - destruct (Args.is_classification a), (Args.is_classification b);
      try reflexivity; discriminate.
  - destruct (Args.tag a), (Args.tag b); try reflexivity;
      try discriminate.
    apply append_inv_head in H. congruence.
Qed.

Lemma render_unchanged k (a b : Args.t pyfloat) items :
  (forall j, j <> k -> field_str j a = field_str j b) ->
  count_occ field_eq_dec (item_fields items) k = 0%nat ->
  map (render a) items = map (render b) items.
Proof.
  intros Hother. induction items as [|[s|j] items IH]; simpl; intros Hc.
  - reflexivity.
  - f_equal. apply IH, Hc.
  - destruct (field_eq_dec j k) as [->|Hne]; [discriminate|].
    f_equal; [apply Hother, Hne | apply IH, Hc].
Qed.

(** When only the hyperparameter [k] may differ and it occurs once among
    the pieces, equal names force equal texts for [k]. *)
Lemma join_render_inv k (a b : Args.t pyfloat) items :
  (forall j, j <> k -> field_str j a = field_str j b) ->
  count_occ field_eq_dec (item_fields items) k = 1%nat ->
  join (map (render a) items) = join (map (render b) items) ->
  field_str k a = field_str k b.
Proof.
  intros Hother. induction items as [|[s|j] items IH]; simpl; intros Hc H.
  - discriminate.
  - apply append_inv_head in H. apply IH; assumption.
  - destruct (field_eq_dec j k) as [->|Hne].
    + injection Hc as Hc.
      unfold join in H.
      rewrite (render_unchanged k a b items Hother Hc) in H.
      apply append_inv_tail in H. exact H.
    + rewrite (Hother j Hne) in H. apply append_inv_head in H.
      apply IH; assumption.
Qed.

Lemma name_items_once k :
  count_occ field_eq_dec (item_fields name_items) k = 1%nat.
Proof. destruct k; reflexivity. Qed.

(** C3: the name [get_model] returns is determined by [args] alone: two
    runs on the same [args] return the same string, whatever the dataset
    description, the device and the framework state.  Two configurations
    that differ in exactly one hyperparameter have different names, and so
    do the names two runs of [get_model] return for them.  ([str] on
    floats is injective: Python prints a float by its shortest
    round-tripping representation.) *)
Theorem model_name_pure_and_injective :
  (forall u v, float_str u = float_str v -> u = v) ->
  (forall args, exists name, model_name args = Ok name)
  /\ (forall args desc1 desc2 device1 device2 s1 s2 m1 m2 n1 n2 s1' s2',
        get_model args desc1 device1 s1 = Ok ((m1, n1), s1') ->
        get_model args desc2 device2 s2 = Ok ((m2, n2), s2') ->
        n1 = n2)
  /\ (forall k a b n1 n2,
        Args.differ_only_at k a b ->
        model_name a = Ok n1 -> model_name b = Ok n2 -> n1 <> n2)
  /\ (forall k a b desc1 desc2 device1 device2 s1 s2 m1 m2 n1 n2 s1' s2',
        Args.differ_only_at k a b ->
        get_model a desc1 device1 s1 = Ok ((m1, n1), s1') ->
        get_model b desc2 device2 s2 = Ok ((m2, n2), s2') ->
        n1 <> n2).
Proof.
  intros Hfloat.
  assert (Hdiff : forall k a b n1 n2,
        Args.differ_only_at k a b ->
        model_name a = Ok n1 -> model_name b = Ok n2 -> n1 <> n2).
  { intros k a b n1 n2 [Hk Hother] H1 H2 Heq. apply Hk.
    rewrite model_name_render in H1, H2.
    injection H1 as <-. injection H2 as <-.
    apply field_str_inj; [exact Hfloat|].
    apply (join_render_inv k a b name_items).
    - intros j Hj. apply field_str_eq, Hother, Hj.
    - apply name_items_once.
    - exact Heq. }
  split; [intros args; rewrite model_name_render; eauto|].
  split; [|split; [exact Hdiff|]].
  - intros args ? ? ? ? ? ? ? ? n1 n2 ? ? H1 H2.
    apply get_model_Ok in H1 as (_ & H1 & _).
    apply get_model_Ok in H2 as (_ & H2 & _). congruence.
  - intros k a b ? ? ? ? ? ? ? ? n1 n2 ? ? Hd H1 H2.
    apply get_model_Ok in H1 as (_ & H1 & _).
    apply get_model_Ok in H2 as (_ & H2 & _).
    exact (Hdiff k a b n1 n2 Hd H1 H2).
Qed.

(** C10: when [base_model_name] is not ["ArterialNet"] the local variable
    [model] is never bound and [get_model] raises at its [return]: no
    model and no name are returned. *)
Theorem get_model_unbound_local args desc device s :
  Args.base_model_name args <> "ArterialNet" ->
  get_model args desc device s = Raise UnboundLocalError.
Proof.
  intros H. apply String.eqb_neq in H.
  unfold get_model. rewrite model_name_render.
  unfold bind, lift, ret, raise. rewrite H. reflexivity.
Qed.

(** ** The graph branches *)

Lemma graph_path_lookup first_in width e p n s path s' i blk :
  mapM (fun idx => GATv2Layer_init (if idx =? 0 then first_in else width)
                     width e p) (range n) s = Ok (path, s') ->
  path !! i = Some blk ->
  spec (conv blk) = GATv2Conv (if Nat.eqb i 0 then first_in else width) width e
  /\ spec (bn blk) = BatchNorm width
  /\ spec (gat_dropout blk) = Dropout p
  /\ edge_dim blk = e.
Proof.
  intros Hpath Hi. apply mapM_Ok in Hpath.
  destruct (Forall2_lookup_r _ _ _ _ _ Hpath Hi)
    as (idx & Hidx & sa & sb & Hblk).
  apply range_lookup in Hidx. subst idx.
  apply GATv2Layer_init_Ok in Hblk as (Ec & Eb & Ed & Ee).
  rewrite Ec. destruct i; auto.
Qed.

Lemma graph_path_length {B} (f : Z -> M B) n s path s' :
  0 < n -> mapM f (range n) s = Ok (path, s') -> Z.of_nat (length path) = n.
Proof.
  intros Hn Hpath. apply mapM_Ok, Forall2_length in Hpath.
  rewrite <- Hpath, range_length. lia.
Qed.

(** X1: the segment path.  With [num_segment_layers > 0] the constructor
    builds that many [GATv2Layer]s: block 0 takes [segment_node_in_dim]
    features, the later ones [hidden_dim]; all return [hidden_dim] features,
    normalise over [hidden_dim], drop out at [dropout] and carry
    [segment_edge_in_dim] as their edge dimension.  With a count of zero or
    less the path is [None] and [forward] yields no segment embedding, leaving
    the framework state untouched. *)
Theorem segment_branch_structure
    gin sn se dn hd hdd out ngl nsl ndl agg p cls st m st' :
  ArterialNet_init gin sn se dn hd hdd out ngl nsl ndl agg p cls st
    = Ok (m, st') ->
  (0 < nsl ->
     exists path,
       segment_path m = Some path
       /\ Z.of_nat (length path) = nsl
       /\ forall i blk, path !! i = Some blk ->
            spec (conv blk)
            = GATv2Conv (if Nat.eqb i 0 then sn else hd) hd se
            /\ spec (bn blk) = BatchNorm hd
            /\ spec (gat_dropout blk) = Dropout p
            /\ edge_dim blk = se)
  /\ (nsl <= 0 ->
        segment_path m = None
        /\ forall data s, forward_segment m data s = Ok (None, s)).
Proof.
  intros H.
  apply init_Ok in H as (s1 & s2 & s3 & s4 & s5 & s6 & _ & Hs & _).
  split.
  - intros Hpos. pose proof Hpos as Hb. apply Z.ltb_lt in Hb.
    rewrite Hb in Hs. destruct Hs as (path & Hpath & Hsp).
    exists path. split; [exact Hsp|]. split.
    + eapply graph_path_length; eassumption.
    + intros i blk Hi. eapply graph_path_lookup; eassumption.
  - intros Hle. assert (Hb : (0 <? nsl) = false) by (apply Z.ltb_ge; lia).
    rewrite Hb in Hs. split; [exact Hs|].
    intros data s. unfold forward_segment. rewrite Hs. reflexivity.
Qed.

(** X2: the dense path.  With [num_dense_layers > 0] the constructor builds
    that many [GATv2Layer]s: block 0 takes [dense_node_in_dim] features, the
    later ones [hidden_dim_dense]; all return [hidden_dim_dense] features and
    none has an edge dimension.  With a count of zero or less the path is
    [None] and [forward] yields no dense embedding. *)
Theorem dense_branch_structure
    gin sn se dn hd hdd out ngl nsl ndl agg p cls st m st' :
  ArterialNet_init gin sn se dn hd hdd out ngl nsl ndl agg p cls st
    = Ok (m, st') ->
  (0 < ndl ->
     exists path,
       dense_path m = Some path
       /\ Z.of_nat (length path) = ndl
       /\ forall i blk, path !! i = Some blk ->
            spec (conv blk)
            = GATv2Conv (if Nat.eqb i 0 then dn else hdd) hdd None
            /\ spec (bn blk) = BatchNorm hdd
            /\ spec (gat_dropout blk) = Dropout p
            /\ edge_dim blk = None)
  /\ (ndl <= 0 ->
        dense_path m = None
        /\ forall data s, forward_dense m data s = Ok (None, s)).
Proof.
  intros H.
  apply init_Ok in H as (s1 & s2 & s3 & s4 & s5 & s6 & _ & _ & Hd & _).
  split.
  - intros Hpos. pose proof Hpos as Hb. apply Z.ltb_lt in Hb.
    rewrite Hb in Hd. destruct Hd as (path & Hpath & Hdp).
    exists path. split; [exact Hdp|]. split.
    + eapply graph_path_length; eassumption.
    + intros i blk Hi. eapply graph_path_lookup; eassumption.
  - intros Hle. assert (Hb : (0 <? ndl) = false) by (apply Z.ltb_ge; lia).
    rewrite Hb in Hd. split; [exact Hd|].
    intros data s. unfold forward_dense. rewrite Hd. reflexivity.
Qed.

(** ** Shapes of the branch embeddings *)

Lemma mapM_Forall {A B} (f : A -> M B) (Q : B -> Prop) l s bs s' :
  (forall a s1 b s2, f a s1 = Ok (b, s2) -> Q b) ->
  mapM f l s = Ok (bs, s') -> Forall Q bs.
Proof.
  intros HQ. revert s bs. induction l as [|a l IH]; simpl; intros s bs H.
  - apply ret_Ok in H as [-> _]. constructor.
  - apply bind_Ok in H as (b & s1 & Hb & H).
    apply bind_Ok in H as (bs' & s2 & Hbs & H).
    apply ret_Ok in H as [-> ->].
    constructor; [eapply HQ, Hb | eapply IH, Hbs].
Qed.

Lemma range_nonempty n : 0 < n -> range n <> [].
Proof.
  intros Hn E. apply (f_equal (@length Z)) in E.
  rewrite range_length in E. simpl in E. lia.
Qed.

Lemma mapM_nonempty {A B} (f : A -> M B) l s bs s' :
  l <> [] -> mapM f l s = Ok (bs, s') -> bs <> [].
Proof.
  intros Hl H. apply mapM_Ok, Forall2_length in H.
  destruct l; [congruence|]. destruct bs; [discriminate|congruence].
Qed.

(** One block of the global path returns [hidden_dim] features per row. *)
Lemma global_block_shape gin hd p idx s0 blk s1 input s y s' :
  Linear_contract -> shape_preserving_contract ->
  global_block gin hd p idx s0 = Ok (blk, s1) ->
  NNModule_forward blk input s = Ok (y, s') ->
  length y = length input /\ has_width hd y.
Proof.
  intros Hlin Hshape Hblk H.
  apply global_block_Ok in Hblk as (l1 & l2 & l3 & l4 & -> & E1 & E2 & E3 & E4).
  simpl in H. unfold layer_forward in H. rewrite E1, E2, E3, E4 in H.
  apply bind_Ok in H as (y1 & t1 & H1 & H).
  apply bind_Ok in H as (y2 & t2 & H2 & H). apply ret_Ok in H2 as [-> ->].
  apply bind_Ok in H as (y3 & t3 & H3 & H).
  apply bind_Ok in H as (y4 & t4 & H4 & H). apply ret_Ok in H as [-> ->].
  destruct (Hlin _ _ _ _ _ _ _ E1 H1) as [L1 W1].
  destruct (Hshape l3 _ _ _ _ ltac:(rewrite E3; exact I) H3) as [L3 W3].
  destruct (Hshape l4 _ _ _ _ ltac:(rewrite E4; exact I) H4) as [L4 W4].
  split.
  - rewrite L4, L3. unfold leaky_relu. rewrite length_map. exact L1.
  - apply W4, W3, has_width_leaky_relu, W1.
Qed.

Lemma global_loop_shape (hd : Z) path input s y s' :
  Forall (fun blk => forall input s y s',
            NNModule_forward blk input s = Ok (y, s') ->
            length y = length input /\ has_width hd y) path ->
  global_loop path input s = Ok (y, s') ->
  length y = length input /\ (path <> [] -> has_width hd y).
Proof.
  intros Hpath. revert input s.
  induction Hpath as [|blk path Hblk _ IH]; simpl; intros input s H.
  - apply ret_Ok in H as [-> _]. split; [reflexivity|congruence].
  - apply bind_Ok in H as (y1 & s1 & H1 & H).
    destruct (Hblk _ _ _ _ H1) as [L1 W1].
    destruct (IH _ _ H) as [L W]. split; [congruence|].
    intros _. destruct path as [|blk' path'].
    + simpl in H. apply ret_Ok in H as [-> _]. exact W1.
    + apply W. discriminate.
Qed.

(** A graph-attention block returns the features its convolution is built
    for, one row per node. *)
Lemma GATv2Layer_shape i o e p s0 blk s1 input edge_index edge_attr s y s' :
  GATv2Conv_contract -> shape_preserving_contract ->
  GATv2Layer_init i o e p s0 = Ok (blk, s1) ->
  GATv2Layer_forward blk input edge_index edge_attr s = Ok (y, s') ->
  length y = length input /\ has_width o y.
Proof.
  intros Hconv Hshape Hblk H.
  apply GATv2Layer_init_Ok in Hblk as (Ec & Eb & Ed & Ee).
  unfold GATv2Layer_forward, layer_forward in H. rewrite Eb, Ed in H.
  apply bind_Ok in H as (y1 & t1 & H1 & H).
  apply bind_Ok in H as (y2 & t2 & H2 & H). apply ret_Ok in H2 as [-> ->].
  apply bind_Ok in H as (y3 & t3 & H3 & H).
  apply bind_Ok in H as (y4 & t4 & H4 & H). apply ret_Ok in H as [-> ->].
  assert (L1 : length y1 = length input /\ has_width o y1).
  { destruct (edge_dim blk); eapply Hconv; eassumption. }
  destruct L1 as [L1 W1].
  destruct (Hshape (bn blk) _ _ _ _ ltac:(rewrite Eb; exact I) H3)
    as [L3 W3].
  destruct (Hshape (gat_dropout blk) _ _ _ _ ltac:(rewrite Ed; exact I) H4)
    as [L4 W4].
  split.
  - rewrite L4, L3. unfold leaky_relu. rewrite length_map. exact L1.
  - apply W4, W3, has_width_leaky_relu, W1.
Qed.

Lemma graph_loop_shape (o : Z) path input edge_index edge_attr s y s' :
  Forall (fun blk => forall input s y s',
            GATv2Layer_forward blk input edge_index edge_attr s = Ok (y, s') ->
            length y = length input /\ has_width o y) path ->
  graph_loop path input edge_index edge_attr s = Ok (y, s') ->
  length y = length input /\ (path <> [] -> has_width o y).
Proof.
  intros Hpath. revert input s.
  induction Hpath as [|blk path Hblk _ IH]; simpl; intros input s H.
  - apply ret_Ok in H as [-> _]. split; [reflexivity|congruence].
  - apply bind_Ok in H as (y1 & s1 & H1 & H).
    destruct (Hblk _ _ _ _ H1) as [L1 W1].
    destruct (IH _ _ H) as [L W]. split; [congruence|].
    intros _. destruct path as [|blk' path'].
    + simpl in H. apply ret_Ok in H as [-> _]. exact W1.
    + apply W. discriminate.
Qed.

(** The embedding of the global branch of a constructed model. *)
Lemma forward_global_shape
    gin sn se dn hd hdd out ngl nsl ndl agg p cls st m st' data s g s' :
  Linear_contract -> shape_preserving_contract ->
  ArterialNet_init gin sn se dn hd hdd out ngl nsl ndl agg p cls st
    = Ok (m, st') ->
  forward_global m data s = Ok (g, s') ->
  match g with
  | Some y => 0 < ngl /\ length y = length (global_data data)
              /\ has_width hd y
  | None => ngl <= 0
  end.
Proof.
  intros Hlin Hshape Hinit H.
  apply init_Ok in Hinit as (s1 & s2 & s3 & s4 & s5 & s6 & Hg & _).
  unfold forward_global in H.
  destruct (0 <? ngl) eqn:Hb.
  - destruct Hg as (path & Hpath & Hgp). rewrite Hgp in H.
    apply bind_Ok in H as (y & t & Hy & H). apply ret_Ok in H as [-> ->].
    apply Z.ltb_lt in Hb. split; [exact Hb|].
    assert (Hne : path <> [])
      by (eapply mapM_nonempty; [apply range_nonempty, Hb | exact Hpath]).
    eapply mapM_Forall in Hpath.
    + destruct (global_loop_shape hd _ _ _ _ _ Hpath Hy) as [L W]. auto.
    + intros idx t1 blk t2 Hblk input t3 y' t4.
      eapply global_block_shape; eassumption.
  - rewrite Hg in H. apply ret_Ok in H as [-> _]. apply Z.ltb_ge in Hb. lia.
Qed.

(** The embedding of a graph branch of a constructed model. *)
Lemma graph_branch_shape first_in width e p n s0 path s1
    nodes0 edge_index edge_attr s nodes s' :
  GATv2Conv_contract -> shape_preserving_contract ->
  0 < n ->
  mapM (fun idx => GATv2Layer_init (if idx =? 0 then first_in else width)
                     width e p) (range n) s0 = Ok (path, s1) ->
  graph_loop path nodes0 edge_index edge_attr s = Ok (nodes, s') ->
  length nodes = length nodes0 /\ has_width width nodes.
Proof.
  intros Hconv Hshape Hn Hpath H.
  assert (Hne : path <> [])
    by (eapply mapM_nonempty; [apply range_nonempty, Hn | exact Hpath]).
  eapply mapM_Forall in Hpath.
  - destruct (graph_loop_shape width _ _ _ _ _ _ _ Hpath H) as [L W]. auto.
  - intros idx t1 blk t2 Hblk input t3 y' t4.
    eapply GATv2Layer_shape; eassumption.
Qed.

Lemma forward_segment_shape
    gin sn se dn hd hdd out ngl nsl ndl agg p cls st m st' data s g s' :
  GATv2Conv_contract -> shape_preserving_contract -> pool_contract ->
  ArterialNet_init gin sn se dn hd hdd out ngl nsl ndl agg p cls st
    = Ok (m, st') ->
  forward_segment m data s = Ok (g, s') ->
  match g with
  | Some y =>
      0 < nsl
      /\ exists f nodes,
           aggregation m = Some f
           /\ pool f nodes (batch (segment_data data)) = Ok y
           /\ length nodes = length (x (segment_data data))
           /\ has_width hd nodes /\ has_width hd y
  | None => nsl <= 0
  end.
Proof.
  intros Hconv Hshape Hpool Hinit H.
  apply init_Ok in Hinit as (s1 & s2 & s3 & s4 & s5 & s6 & _ & Hs & _).
  unfold forward_segment in H.
  destruct (0 <? nsl) eqn:Hb.
  - destruct Hs as (path & Hpath & Hsp). rewrite Hsp in H.
    apply bind_Ok in H as (nodes & t & Hn & H).
    apply bind_Ok in H as (y & t' & Hy & H). apply ret_Ok in H as [-> ->].
    apply Z.ltb_lt in Hb. split; [exact Hb|].
    unfold call_aggregation in Hy.
    destruct (aggregation m) as [f|]; [|discriminate].
    apply lift_Ok in Hy as [Hy _].
    destruct (graph_branch_shape _ _ _ _ _ _ _ _ _ _ _ _ _ _
                Hconv Hshape Hb Hpath Hn) as [L W].
    exists f, nodes. repeat (split; [auto|]). eapply Hpool; eassumption.
  - rewrite Hs in H. apply ret_Ok in H as [-> _]. apply Z.ltb_ge in Hb. lia.
Qed.

Lemma forward_dense_shape
    gin sn se dn hd hdd out ngl nsl ndl agg p cls st m st' data s g s' :
  GATv2Conv_contract -> shape_preserving_contract -> pool_contract ->
  ArterialNet_init gin sn se dn hd hdd out ngl nsl ndl agg p cls st
    = Ok (m, st') ->
  forward_dense m data s = Ok (g, s') ->
  match g with
  | Some y =>
      0 < ndl
      /\ exists f nodes,
           aggregation m = Some f
           /\ pool f nodes (batch (dense_data data)) = Ok y
           /\ length nodes = length (x (dense_data data))
           /\ has_width hdd nodes /\ has_width hdd y
  | None => ndl <= 0
  end.
Proof.
  intros Hconv Hshape Hpool Hinit H.
  apply init_Ok in Hinit as (s1 & s2 & s3 & s4 & s5 & s6 & _ & _ & Hd & _).
  unfold forward_dense in H.
  destruct (0 <? ndl) eqn:Hb.
  - destruct Hd as (path & Hpath & Hdp). rewrite Hdp in H.
    apply bind_Ok in H as (nodes & t & Hn & H).
    apply bind_Ok in H as (y & t' & Hy & H). apply ret_Ok in H as [-> ->].
    apply Z.ltb_lt in Hb. split; [exact Hb|].
    unfold call_aggregation in Hy.
    destruct (aggregation m) as [f|]; [|discriminate].
    apply lift_Ok in Hy as [Hy _].
    destruct (graph_branch_shape _ _ _ _ _ _ _ _ _ _ _ _ _ _
                Hconv Hshape Hb Hpath Hn) as [L W].
    exists f, nodes. repeat (split; [auto|]). eapply Hpool; eassumption.
  - rewrite Hd in H. apply ret_Ok in H as [-> _]. apply Z.ltb_ge in Hb. lia.
Qed.

(** X3: the global embedding of a constructed model with
    [num_global_layers > 0] has one row per row of [global_data] and
    [hidden_dim] features, however many blocks the path has. *)
Theorem global_embedding_shape
    gin sn se dn hd hdd out ngl nsl ndl agg p cls st m st' data s g s' :
  Linear_contract -> shape_preserving_contract ->
  ArterialNet_init gin sn se dn hd hdd out ngl nsl ndl agg p cls st
    = Ok (m, st') ->
  0 < ngl ->
  forward_global m data s = Ok (g, s') ->
  exists y, g = Some y /\ length y = length (global_data data)
            /\ has_width hd y.
Proof.
  intros Hlin Hshape Hinit Hpos H.
  pose proof (forward_global_shape _ _ _ _ _ _ _ _ _ _ _ _ _ _ _ _ _ _ _ _
                Hlin Hshape Hinit H) as Hg.
  destruct g as [y|]; [|lia]. exists y. tauto.
Qed.

(** X4: in a constructed model with [num_segment_layers > 0] the segment
    layers keep one row per node and give [hidden_dim] features; the segment
    embedding is the selected pooling of these node embeddings over the
    segment graph's batch vector and has [hidden_dim] features. *)
Theorem segment_embedding_shape
    gin sn se dn hd hdd out ngl nsl ndl agg p cls st m st' data s g s' :
  GATv2Conv_contract -> shape_preserving_contract -> pool_contract ->
  ArterialNet_init gin sn se dn hd hdd out ngl nsl ndl agg p cls st
    = Ok (m, st') ->
  0 < nsl ->
  forward_segment m data s = Ok (g, s') ->
  exists f nodes y,
    g = Some y
    /\ aggregation m = Some f
    /\ pool f nodes (batch (segment_data data)) = Ok y
    /\ length nodes = length (x (segment_data data))
    /\ has_width hd nodes /\ has_width hd y.
Proof.
  intros Hconv Hshape Hpool Hinit Hpos H.
  pose proof (forward_segment_shape _ _ _ _ _ _ _ _ _ _ _ _ _ _ _ _ _ _ _ _
                Hconv Hshape Hpool Hinit H) as Hg.
  destruct g as [y|]; [|lia].
  destruct Hg as (_ & f & nodes & Hrest). exists f, nodes, y. tauto.
Qed.

(** X5: the same for the dense branch, with [hidden_dim_dense] features. *)
Theorem dense_embedding_shape
    gin sn se dn hd hdd out ngl nsl ndl agg p cls st m st' data s g s' :
  GATv2Conv_contract -> shape_preserving_contract -> pool_contract ->
  ArterialNet_init gin sn se dn hd hdd out ngl nsl ndl agg p cls st
    = Ok (m, st') ->
  0 < ndl ->
  forward_dense m data s = Ok (g, s') ->
  exists f nodes y,
    g = Some y
    /\ aggregation m = Some f
    /\ pool f nodes (batch (dense_data data)) = Ok y
    /\ length nodes = length (x (dense_data data))
    /\ has_width hdd nodes /\ has_width hdd y.
Proof.
  intros Hconv Hshape Hpool Hinit Hpos H.
  pose proof (forward_dense_shape _ _ _ _ _ _ _ _ _ _ _ _ _ _ _ _ _ _ _ _
                Hconv Hshape Hpool Hinit H) as Hg.
  destruct g as [y|]; [|lia].
  destruct Hg as (_ & f & nodes & Hrest). exists f, nodes, y. tauto.
Qed.

(** ** Shape of the fused features *)

Lemma not_None_Forall (P : Tensor -> Prop) (g sg d : option Tensor) :
  Forall P (not_None [g; sg; d]) ->
  (forall y, g = Some y -> P y) /\ (forall y, sg = Some y -> P y)
  /\ (forall y, d = Some y -> P y).
Proof.
  intros H. destruct g, sg, d; simpl in H;
    repeat match goal with
           | H : Forall _ (_ :: _) |- _ => inversion H; subst; clear H
           end;
    repeat split; intros y E; try discriminate; injection E as <-;
    assumption.
Qed.

Lemma features_at_width i (g : option Tensor) w (total : Tensor) :
  (forall y, g = Some y -> length y = length total /\ has_width w y) ->
  (i < length total)%nat ->
  Z.of_nat (length (features_at i g)) = branch_width g w.
Proof.
  intros Hg Hi. destruct g as [y|]; simpl; [|reflexivity].
  destruct (Hg y eq_refl) as [L W]. unfold has_width in W.
  rewrite List.Forall_nth in W. apply W. lia.
Qed.

(** Concatenation adds the widths of the embeddings that are present. *)
Lemma torch_cat_dim1_width (g sg d : option Tensor) wg ws wd
    (total : Tensor) :
  torch_cat_dim1 (not_None [g; sg; d]) = Ok total ->
  (forall y, g = Some y -> has_width wg y) ->
  (forall y, sg = Some y -> has_width ws y) ->
  (forall y, d = Some y -> has_width wd y) ->
  has_width (branch_width g wg + branch_width sg ws + branch_width d wd) total
  /\ (forall y, g = Some y -> length y = length total)
  /\ (forall y, sg = Some y -> length y = length total)
  /\ (forall y, d = Some y -> length y = length total).
Proof.
  intros Ht Wg Ws Wd.
  destruct (torch_cat_dim1_rows _ _ Ht) as [Hlen Hrows].
  apply not_None_Forall in Hlen as (Lg & Ls & Ld).
  split; [|auto].
  unfold has_width. apply List.Forall_nth. intros i dflt Hi.
  rewrite (nth_indep _ dflt [] Hi), Hrows by exact Hi.
  rewrite not_None_rows, !length_app, !Nat2Z.inj_add.
  rewrite (features_at_width i g wg total),
          (features_at_width i sg ws total),
          (features_at_width i d wd total); auto; lia.
Qed.

Lemma output_layer_rows
    gin sn se dn hd hdd out ngl nsl ndl agg p cls st m st' total s y s' :
  Linear_contract ->
  ArterialNet_init gin sn se dn hd hdd out ngl nsl ndl agg p cls st
    = Ok (m, st') ->
  NNModule_forward (output_layer m) total s = Ok (y, s') ->
  length y = length total.
Proof.
  intros Hlin Hinit H.
  apply init_Ok in Hinit
    as (_ & _ & _ & _ & _ & _ & _ & _ & _ & Hout & _).
  destruct cls.
  - destruct Hout as (l1 & l2 & Eo & E1 & E2). rewrite Eo in H.
    simpl in H. unfold layer_forward in H. rewrite E1, E2 in H.
    apply bind_Ok in H as (y1 & s1 & H1 & H).
    apply bind_Ok in H as (y2 & s2 & H2 & H).
    apply ret_Ok in H2 as [-> ->]. apply ret_Ok in H as [-> ->].
    unfold softmax_dim1. rewrite length_map.
    apply (Hlin _ _ _ _ _ _ _ E1 H1).
  - destruct Hout as (l & Eo & E1). rewrite Eo in H.
    simpl in H. unfold layer_forward in H. rewrite E1 in H.
    apply (Hlin _ _ _ _ _ _ _ E1 H).
Qed.

(** X6: in a [forward] call of a constructed model that returns, the tensor
    the fusion head receives, the concatenation of the embeddings the three
    branches returned in this call, has as many features per row as the
    active branches' hidden widths add up to; every embedding that is not
    [None] has the same number of rows as it (the rows of [global_data] for
    the global one), and so has the prediction. *)
Theorem fused_features_shape
    gin sn se dn hd hdd out ngl nsl ndl agg p cls st m st' data s y s' :
  Linear_contract -> GATv2Conv_contract -> shape_preserving_contract ->
  pool_contract ->
  ArterialNet_init gin sn se dn hd hdd out ngl nsl ndl agg p cls st
    = Ok (m, st') ->
  forward m data s = Ok (y, s') ->
  exists global_features segment_x dense_x s1 s2 s3 total_features,
    forward_global m data s = Ok (global_features, s1)
    /\ forward_segment m data s1 = Ok (segment_x, s2)
    /\ forward_dense m data s2 = Ok (dense_x, s3)
    /\ torch_cat_dim1 (not_None [global_features; segment_x; dense_x])
       = Ok total_features
    /\ NNModule_forward (output_layer m) total_features s3 = Ok (y, s')
    /\ has_width (active_width m) total_features
    /\ (forall t, global_features = Some t ->
          length t = length total_features
          /\ length t = length (global_data data))
    /\ (forall t, segment_x = Some t -> length t = length total_features)
    /\ (forall t, dense_x = Some t -> length t = length total_features)
    /\ length y = length total_features.
Proof.
  intros Hlin Hconv Hshape Hpool Hinit H.
  apply forward_Ok in H as (g & sg & d & s1 & s2 & s3 & total
                            & Hg & Hs & Hd & Ht & Ho).
  pose proof (forward_global_shape _ _ _ _ _ _ _ _ _ _ _ _ _ _ _ _ _ _ _ _
                Hlin Hshape Hinit Hg) as Sg.
  pose proof (forward_segment_shape _ _ _ _ _ _ _ _ _ _ _ _ _ _ _ _ _ _ _ _
                Hconv Hshape Hpool Hinit Hs) as Ss.
  pose proof (forward_dense_shape _ _ _ _ _ _ _ _ _ _ _ _ _ _ _ _ _ _ _ _
                Hconv Hshape Hpool Hinit Hd) as Sd.
  pose proof (forward_global_None _ _ _ _ _ Hg) as Ng.
  pose proof (forward_segment_None _ _ _ _ _ Hs) as Ns.
  pose proof (forward_dense_None _ _ _ _ _ Hd) as Nd.
  destruct (torch_cat_dim1_width g sg d hd hd hdd total Ht)
    as (W & Lg & Ls & Ld).
  { intros t ->. tauto. }
  { intros t ->. destruct Ss as (_ & f & nodes & Hr). tauto. }
  { intros t ->. destruct Sd as (_ & f & nodes & Hr). tauto. }
  exists g, sg, d, s1, s2, s3, total.
  repeat (split; [assumption|]). split.
  - apply init_Ok in Hinit
      as (_ & _ & _ & _ & _ & _ & _ & _ & _ & _ & _ & _ & Ehd & Ehdd & _).
    unfold active_width. rewrite Ehd, Ehdd.
    replace (branch_width (global_path m) hd) with (branch_width g hd)
      by (destruct g, (global_path m); simpl; try reflexivity;
          destruct Ng as [H1 H2]; first [discriminate (H1 eq_refl)
                                        | discriminate (H2 eq_refl)]).
    replace (branch_width (segment_path m) hd) with (branch_width sg hd)
      by (destruct sg, (segment_path m); simpl; try reflexivity;
          destruct Ns as [H1 H2]; first [discriminate (H1 eq_refl)
                                        | discriminate (H2 eq_refl)]).
    replace (branch_width (dense_path m) hdd) with (branch_width d hdd)
      by (destruct d, (dense_path m); simpl; try reflexivity;
          destruct Nd as [H1 H2]; first [discriminate (H1 eq_refl)
                                        | discriminate (H2 eq_refl)]).
    exact W.
  - split; [|split; [exact Ls|split; [exact Ld|]]].
    + intros t ->. split; [apply Lg; reflexivity|]. tauto.
    + eapply output_layer_rows; eassumption.
Qed.

(** X7: the fan-in of the linear projection equals the sum of the hidden
    widths of the active branches exactly in classification mode, or when the
    dense branch is disabled, or when [hidden_dim_dense = hidden_dim]. *)
Theorem fan_in_matches_active_width
    gin sn se dn hd hdd out ngl nsl ndl agg p cls st m st' :
  ArterialNet_init gin sn se dn hd hdd out ngl nsl ndl agg p cls st
    = Ok (m, st') ->
  (fan_in (output_layer m) = Some (active_width m)
   <-> cls = true \/ ndl <= 0 \/ hdd = hd).
Proof.
  intros H.
  destruct cls.
  - split; [auto|]. intros _. eapply fan_in_classification; eassumption.
  - rewrite (fan_in_regression _ _ _ _ _ _ _ _ _ _ _ _ _ _ _ H).
    pose proof (init_paths _ _ _ _ _ _ _ _ _ _ _ _ _ _ _ _ H)
      as (_ & _ & Ed).
    apply init_Ok in H
      as (_ & _ & _ & _ & _ & _ & _ & _ & _ & _ & _ & _ & Ehd & Ehdd & _).
    unfold active_width. rewrite Ehd, Ehdd, !Ed.
    destruct (0 <? ndl) eqn:Hb; simpl.
    + apply Z.ltb_lt in Hb. split.
      * intros [= E]. right. right. lia.
      * intros [?|[?|E]]; [discriminate|lia|rewrite E; reflexivity].
    + apply Z.ltb_ge in Hb. split; [auto|]. intros _. f_equal. lia.
Qed.

(** ** What [forward] does not read *)

Lemma bind_ext {A B} (m : M A) (k1 k2 : A -> M B) s :
  (forall a s1, k1 a s1 = k2 a s1) -> bind m k1 s = bind m k2 s.
Proof. intros H. unfold bind. destruct (m s) as [[a s1]|e]; auto. Qed.

Lemma bind_ext_l {A B} (m1 m2 : M A) (k : A -> M B) s :
  m1 s = m2 s -> bind m1 k s = bind m2 k s.
Proof. intros H. unfold bind. rewrite H. reflexivity. Qed.

Lemma graph_loop_ignores_edge_attr path input edge_index a1 a2 s :
  Forall (fun blk => edge_dim blk = None) path ->
  graph_loop path input edge_index a1 s
  = graph_loop path input edge_index a2 s.
Proof.
  intros Hpath. revert input s.
  induction Hpath as [|blk path Hblk _ IH]; simpl; intros input s.
  - reflexivity.
  - unfold GATv2Layer_forward. rewrite Hblk.
    apply bind_ext. intros y s1. apply IH.
Qed.

(** X8: the edge features of the dense graph never reach the model, and
    those of the segment graph reach it only when the model was constructed
    with a segment edge dimension: with [segment_edge_in_dim = None], replacing
    [edge_attr] changes neither the result nor the framework state. *)
Theorem forward_reads_edge_attr_only_with_edge_dim
    gin sn se dn hd hdd out ngl nsl ndl agg p cls st m st' data s :
  ArterialNet_init gin sn se dn hd hdd out ngl nsl ndl agg p cls st
    = Ok (m, st') ->
  (forall a, forward m (with_dense_edge_attr data a) s = forward m data s)
  /\ (se = None ->
      forall a, forward m (with_segment_edge_attr data a) s
                = forward m data s).
Proof.
  intros Hinit. split; [intros a; reflexivity|].
  intros -> a.
  apply init_Ok in Hinit as (s1 & s2 & s3 & s4 & s5 & s6 & _ & Hs & _).
  assert (Hseg : forall t, forward_segment m (with_segment_edge_attr data a) t
                           = forward_segment m data t).
  { intros t. unfold forward_segment. simpl.
    destruct (0 <? nsl).
    - destruct Hs as (path & Hpath & ->).
      apply bind_ext_l. apply graph_loop_ignores_edge_attr.
      eapply mapM_Forall; [|exact Hpath].
      intros idx t1 blk t2 Hblk.
      apply GATv2Layer_init_Ok in Hblk. tauto.
    - rewrite Hs. reflexivity. }
  unfold forward.
  change (forward_global m (with_segment_edge_attr data a))
    with (forward_global m data).
  change (forward_dense m (with_segment_edge_attr data a))
    with (forward_dense m data).
  apply bind_ext. intros g t. unfold bind at 1 3. rewrite Hseg. reflexivity.
Qed.

(** X10: an aggregation string other than ["add"], ["mean"] and ["max"] is
    accepted by the constructor, but with a graph branch active no [forward]
    call on the model returns: the pooling attribute was never assigned. *)
Theorem unknown_aggregation_never_returns
    gin sn se dn hd hdd out ngl nsl ndl agg p cls st m st' data s :
  agg <> "add" -> agg <> "mean" -> agg <> "max" ->
  0 < nsl \/ 0 < ndl ->
  ArterialNet_init gin sn se dn hd hdd out ngl nsl ndl agg p cls st
    = Ok (m, st') ->
  aggregation m = None
  /\ forall out' s', forward m data s <> Ok (out', s').
Proof.
  intros Ha Hm Hx Hactive Hinit.
  apply String.eqb_neq in Ha, Hm, Hx.
  apply init_Ok in Hinit
    as (s1 & s2 & s3 & s4 & s5 & s6 & _ & Hs & Hd & _ & Hagg & _).
  rewrite Ha, Hm, Hx in Hagg. split; [exact Hagg|].
  intros out' s' H.
  apply forward_Ok in H as (g & sg & d & t1 & t2 & t3 & total
                            & _ & Hsg & Hdn & _).
  destruct Hactive as [Hpos|Hpos]; apply Z.ltb_lt in Hpos.
  - rewrite Hpos in Hs. destruct Hs as (path & _ & Hsp).
    unfold forward_segment in Hsg. rewrite Hsp in Hsg.
    apply bind_Ok in Hsg as (nodes & u & _ & Hsg).
    apply bind_Ok in Hsg as (y & u' & Hcall & _).
    unfold call_aggregation in Hcall. rewrite Hagg in Hcall. discriminate.
  - rewrite Hpos in Hd. destruct Hd as (path & _ & Hdp).
    unfold forward_dense in Hdn. rewrite Hdp in Hdn.
    apply bind_Ok in Hdn as (nodes & u & _ & Hdn).
    apply bind_Ok in Hdn as (y & u' & Hcall & _).
    unfold call_aggregation in Hcall. rewrite Hagg in Hcall. discriminate.
Qed.

(** ** Where errors come from *)

Lemma bind_Raise {A B} (m : M A) (k : A -> M B) st e :
  bind m k st = Raise e ->
  m st = Raise e \/ exists a st1, m st = Ok (a, st1) /\ k a st1 = Raise e.
Proof.
  unfold bind. destruct (m st) as [[a st1]|e']; [eauto|].
  intros [= ->]. auto.
Qed.

Lemma new_Raise sp st e :
  new sp st = Raise e -> new_module sp st = Raise e.
Proof.
  unfold new. intros H. apply bind_Raise in H as [H|(q & s1 & _ & H)];
    [exact H | discriminate].
Qed.

Lemma mapM_Raise {A B} (f : A -> M B) l st e :
  mapM f l st = Raise e -> exists a s, f a s = Raise e.
Proof.
  revert st. induction l as [|a l IH]; simpl; intros st H; [discriminate|].
  apply bind_Raise in H as [H|(b & s1 & _ & H)]; [eauto|].
  apply bind_Raise in H as [H|(bs & s2 & _ & H)]; [eauto|discriminate].
Qed.

Lemma global_block_Raise gin hd p idx st e :
  global_block gin hd p idx st = Raise e ->
  exists sp s, new_module sp s = Raise e.
Proof.
  unfold global_block. intros H.
  repeat (apply bind_Raise in H as [H|(? & ? & _ & H)];
          [apply new_Raise in H; eauto|]).
  discriminate.
Qed.

Lemma GATv2Layer_init_Raise i o e' p st e :
  GATv2Layer_init i o e' p st = Raise e ->
  exists sp s, new_module sp s = Raise e.
Proof.
  unfold GATv2Layer_init. intros H.
  repeat (apply bind_Raise in H as [H|(? & ? & _ & H)];
          [apply new_Raise in H; eauto|]).
  discriminate.
Qed.

(** X14: the constructor raises nothing of its own: whenever
    [ArterialNet(...)] raises, one of the framework's layer constructors
    raised that exception.  No configuration (negative widths, zero layers,
    unknown aggregation) is rejected by the constructor itself. *)
Theorem init_raises_only_from_framework
    gin sn se dn hd hdd out ngl nsl ndl agg p cls st e :
  ArterialNet_init gin sn se dn hd hdd out ngl nsl ndl agg p cls st
    = Raise e ->
  exists sp s, new_module sp s = Raise e.
Proof.
  unfold ArterialNet_init. intros H.
  apply bind_Raise in H as [H|(gp & t1 & _ & H)].
  { destruct (0 <? ngl); [|discriminate].
    apply bind_Raise in H as [H|(? & ? & _ & H)]; [|discriminate].
    apply mapM_Raise in H as (idx & t & H).
    eapply global_block_Raise, H. }
  apply bind_Raise in H as [H|(sp & t2 & _ & H)].
  { destruct (0 <? nsl); [|discriminate].
    apply bind_Raise in H as [H|(? & ? & _ & H)]; [|discriminate].
    apply mapM_Raise in H as (idx & t & H).
    eapply GATv2Layer_init_Raise, H. }
  apply bind_Raise in H as [H|(dp & t3 & _ & H)].
  { destruct (0 <? ndl); [|discriminate].
    apply bind_Raise in H as [H|(? & ? & _ & H)]; [|discriminate].
    apply mapM_Raise in H as (idx & t & H).
    eapply GATv2Layer_init_Raise, H. }
  apply bind_Raise in H as [H|(ol & t4 & _ & H)]; [|discriminate].
  destruct cls.
  - repeat (apply bind_Raise in H as [H|(? & ? & _ & H)];
            [apply new_Raise in H; eauto|]).
    discriminate.
  - repeat (apply bind_Raise in H as [H|(? & ? & _ & H)];
            [apply new_Raise in H; eauto|]).
    discriminate.
Qed.

(** ** What [get_model] returns *)

(** X11: with [base_model_name = "ArterialNet"], [get_model] returns
    exactly when the constructor returns and moving the module to [device]
    succeeds; it then returns the constructor's model and the name, and the
    model has two outputs in classification mode and one otherwise, with
    [hidden_channels] and [hidden_channels_dense] as its hidden widths.
    When the constructor raises, or when the move to the device raises,
    [get_model] raises the same exception. *)
Theorem get_model_returns_constructed_model args desc device s :
  let construct :=
    ArterialNet_init
      (num_global_features desc) (num_segment_node_features desc)
      (num_segment_edge_features desc) (num_dense_node_features desc)
      (Args.hidden_channels args) (Args.hidden_channels_dense args)
      (if Args.is_classification args then 2 else 1)
      (Args.num_global_layers args) (Args.num_segment_layers args)
      (Args.num_dense_layers args) (Args.aggregation args)
      (Args.dropout args) (Args.is_classification args) in
  Args.base_model_name args = "ArterialNet" ->
  (forall m name s',
     get_model args desc device s = Ok ((m, name), s') <->
     model_name args = Ok name
     /\ exists s1, construct s = Ok (m, s1) /\ module_to device s1 = Ok s')
  /\ (forall e, construct s = Raise e ->
                get_model args desc device s = Raise e)
  /\ (forall m s1 e,
        construct s = Ok (m, s1) -> module_to device s1 = Raise e ->
        get_model args desc device s = Raise e)
  /\ (forall m name s',
        get_model args desc device s = Ok ((m, name), s') ->
        out_dim m = (if Args.is_classification args then 2 else 1)
        /\ is_classification m = Args.is_classification args
        /\ hidden_dim m = Args.hidden_channels args
        /\ hidden_dim_dense m = Args.hidden_channels_dense args).
Proof.
  intros construct Hbase.
  assert (Hrun : get_model args desc device s =
                 match construct s with
                 | Ok (m, s1) =>
                     match module_to device s1 with
                     | Ok s' =>
                         Ok ((m, join (map (render args) name_items)), s')
                     | Raise e => Raise e
                     end
                 | Raise e => Raise e
                 end).
  { unfold get_model. rewrite model_name_render.
    apply String.eqb_eq in Hbase.
    unfold bind, lift, ret, to_device. rewrite Hbase. fold construct.
    destruct (construct s) as [[m s1]|e]; [|reflexivity].
    destruct (module_to device s1); reflexivity. }
  split; [|split; [|split]].
  - intros m name s'. rewrite Hrun, model_name_render.
    destruct (construct s) as [[m0 s0]|e].
    + destruct (module_to device s0) as [s2|e] eqn:Hto; split.
      * intros [= -> <- ->]. eauto.
      * intros [[= <-] (s1 & [= -> ->] & Hto')].
        rewrite Hto in Hto'. injection Hto' as ->. reflexivity.
      * discriminate.
      * intros [_ (s1 & [= -> ->] & Hto')]. congruence.
    + split; [discriminate|]. intros [_ (s1 & ? & _)]. discriminate.
  - intros e He. rewrite Hrun, He. reflexivity.
  - intros m s1 e Hc Hto. rewrite Hrun, Hc, Hto. reflexivity.
  - intros m name s' H. apply get_model_Ok in H as (_ & _ & s1 & H & _).
    apply init_Ok in H
      as (_ & _ & _ & _ & _ & _ & _ & _ & _ & _ & _ & Hc & Ehd & Ehdd & Eo).
    auto.
Qed.

(** ** Names that coincide *)

(** X12: the name does not separate configurations that differ in two
    hyperparameters.  For every configuration there are two configurations
    that agree with it everywhere except on [aggregation] and [tag], differ
    from each other on both, and have the same name: the text that follows
    the aggregation in the name can be moved between the aggregation string
    and the tag. *)
Theorem model_name_collides_on_two_fields (a : Args.t pyfloat) :
  exists b c,
    (forall k, k <> Args.f_aggregation -> k <> Args.f_tag ->
               Args.get k b = Args.get k a /\ Args.get k c = Args.get k a)
    /\ Args.get Args.f_aggregation b <> Args.get Args.f_aggregation c
    /\ Args.get Args.f_tag b <> Args.get Args.f_tag c
    /\ model_name b = model_name c.
Proof.
  set (mid := "_drop-" ++ float_str (Args.dropout a)
              ++ "_wl-" ++ str_bool (Args.weighted_loss a)
              ++ "_os-" ++ str_bool (Args.oversampling a)
              ++ "_rs-" ++ str_int (Args.random_state a)
              ++ "_trs-" ++ str_int (Args.test_random_state a)
              ++ (if Args.is_classification a then "_class" else "")).
  exists (Args.mk (Args.base_model_name a) (Args.batch_size a)
            (Args.total_epochs a) (Args.hidden_channels a)
            (Args.hidden_channels_dense a) (Args.optimizer a)
            (Args.learning_rate a) (Args.lr_scheduler a)
            (Args.num_global_layers a) (Args.num_segment_layers a)
            (Args.num_dense_layers a) (Args.aggregation a)
            (Args.dropout a) (Args.weighted_loss a) (Args.oversampling a)
            (Args.random_state a) (Args.test_random_state a)
            (Args.is_classification a) (Some (mid ++ "_tag-"))).
  exists (Args.mk (Args.base_model_name a) (Args.batch_size a)
            (Args.total_epochs a) (Args.hidden_channels a)
            (Args.hidden_channels_dense a) (Args.optimizer a)
            (Args.learning_rate a) (Args.lr_scheduler a)
            (Args.num_global_layers a) (Args.num_segment_layers a)
            (Args.num_dense_layers a)
            (Args.aggregation a ++ mid ++ "_tag-")
            (Args.dropout a) (Args.weighted_loss a) (Args.oversampling a)
            (Args.random_state a) (Args.test_random_state a)
            (Args.is_classification a) (Some "")).
  assert (Hlen : (0 < String.length (mid ++ "_tag-"))%nat)
    by (rewrite append_length; simpl; lia).
  split; [|split; [|split]].
  - intros k Hk1 Hk2. destruct k; try (split; reflexivity); contradiction.
  - simpl. intros [= H]. apply (f_equal String.length) in H.
    rewrite append_length in H. lia.
  - simpl. intros [= H].
  - rewrite !model_name_render. f_equal. unfold name_items. simpl.
    unfold join. simpl.
    destruct (Args.is_classification a); subst mid;
      repeat (rewrite append_assoc || rewrite append_cons);
      rewrite ?append_nil_r; reflexivity.
Qed.

(** ** Embeddings that do not line up *)

Lemma torch_cat_dim1_Raise tensors e :
  torch_cat_dim1 tensors = Raise e -> e = RuntimeError.
Proof.
  induction tensors as [|t rest IH]; simpl; [congruence|].
  destruct rest as [|t' rest']; [discriminate|].
  destruct (torch_cat_dim1 (t' :: rest')) as [u|e']; simpl.
  - destruct (Nat.eqb (length t) (length u)); [discriminate|congruence].
  - intros [= <-]. apply IH. reflexivity.
Qed.

(** X15: when the three branches have run and two of the embeddings they
    produced have different numbers of rows (the global features hold
    another number of samples than the batch vectors name graphs), [forward]
    raises at the concatenation and the fusion head is not called. *)
Theorem forward_raises_on_row_mismatch
    self data s global_features segment_x dense_x s1 s2 s3 (t1 t2 : Tensor) :
  forward_global self data s = Ok (global_features, s1) ->
  forward_segment self data s1 = Ok (segment_x, s2) ->
  forward_dense self data s2 = Ok (dense_x, s3) ->
  In t1 (not_None [global_features; segment_x; dense_x]) ->
  In t2 (not_None [global_features; segment_x; dense_x]) ->
  length t1 <> length t2 ->
  forward self data s = Raise RuntimeError.
Proof.
  intros Hg Hs Hd In1 In2 Hne.
  unfold forward, bind. rewrite Hg, Hs, Hd. unfold lift.
  destruct (torch_cat_dim1 (not_None [global_features; segment_x; dense_x]))
    as [total|e] eqn:Ht.
  - exfalso. destruct (torch_cat_dim1_rows _ _ Ht) as [Hlen _].
    rewrite List.Forall_forall in Hlen.
    apply Hne. rewrite (Hlen _ In1), (Hlen _ In2). reflexivity.
  - apply torch_cat_dim1_Raise in Ht. subst e. reflexivity.
Qed.
End Properties.


(** * The model on concrete inputs *)

(** ** The executable framework meets the contracts *)



Lemma project_shape o shift t :
  0 <= o -> length (project o shift t) = length t
            /\ has_width o (project o shift t).
Proof.
  intros Ho. unfold project. split; [apply length_map|].
  apply Forall_map, List.Forall_forall. intros row _. simpl.
  rewrite repeat_length. lia.
Qed.

Lemma SimpleTorch_Linear : @Linear_contract SimpleTorch.
Proof.
  intros [sp q] i o input s y s'. simpl. intros ->.
  unfold simple_module_forward. simpl.
  destruct ((0 <=? i) && (0 <=? o)) eqn:Hs; [|discriminate]. simpl.
  destruct (width_is i input); [|discriminate].
  intros [= <- <-]. apply project_shape.
  apply andb_prop in Hs as [_ Ho]. apply Z.leb_le, Ho.
Qed.

Lemma SimpleTorch_GATv2Conv : @GATv2Conv_contract SimpleTorch.
Proof.
  intros [sp q] i o e input ei ea s y s'. simpl. intros ->.
  unfold simple_conv_forward. simpl.
  destruct ((0 <=? i) && (0 <=? o)
            && match e with Some d => 0 <=? d | None => true end) eqn:Hs;
    [|discriminate]. simpl.
  destruct (width_is i input); [|discriminate].
  intros [= <- <-]. apply project_shape.
  apply andb_prop in Hs as [Hs _]. apply andb_prop in Hs as [_ Ho].
  apply Z.leb_le, Ho.
Qed.

Lemma SimpleTorch_shape_preserving : @shape_preserving_contract SimpleTorch.
Proof.
  intros [sp q] input s y s'. simpl. unfold simple_module_forward. simpl.
  destruct sp as [i o|sl|n|r|d|i o e|n]; try contradiction; intros _; simpl.
  - destruct (0 <=? n); [|discriminate]. simpl.
    destruct (width_is n input); [|discriminate].
    intros [= <- <-]. auto.
  - intros [= <- <-]. auto.
  - destruct (0 <=? n); [|discriminate]. simpl.
    destruct (width_is n input); [|discriminate].
    intros [= <- <-]. auto.
Qed.

(** ** The built-ins on small inputs *)

Example format_example : format "a-{}_b-{}" ["x"; "yz"] = Ok "a-x_b-yz".
Proof. reflexivity. Qed.

Example format_too_few_arguments : format "{}_{}" ["x"] = Raise IndexError.
Proof. reflexivity. Qed.

Example py_sum_example : py_sum [true; false; true] = 2.
Proof. reflexivity. Qed.

Example range_example : range 3 = [0; 1; 2].
Proof. reflexivity. Qed.

Example torch_cat_dim1_example :
  torch_cat_dim1 [[[1; 2]; [3; 4]]; [[5]; [6]]]%R
  = Ok [[1; 2; 5]; [3; 4; 6]]%R.
Proof. reflexivity. Qed.

Example torch_cat_dim1_rows_mismatch :
  torch_cat_dim1 [[[1; 2]; [3; 4]]; [[5]]]%R = Raise RuntimeError.
Proof. reflexivity. Qed.

Example model_name_example :
  @model_name SimpleTorch example_args
  = Ok "ArterialNet_bs-8_te-100_hc-4_hcd-3_op-adam_lr-0.001_lrs-plateau_ngl-2_nsl-1_ndl-1_agg-max_drop-0.2_wl-False_os-True_rs-42_trs-7_class".
Proof. reflexivity. Qed.

(** ** Instances of the theorems *)

Lemma GATv2Layer_forward_ignores_edge_attr_witness :
  GATv2Layer_forward example_block [[1; 0]; [0; 1]]%R [(0, 1)]%nat
    (Some [[1]]%R) 0%nat
  = GATv2Layer_forward example_block [[1; 0]; [0; 1]]%R [(0, 1)]%nat
      (Some [[5]]%R) 0%nat.
Proof.
  apply (@GATv2Layer_forward_ignores_edge_attr SimpleTorch example_block).
  reflexivity.
Defined.

Lemma GATv2Layer_forward_stages_witness :
  exists self st1,
    @GATv2Layer_init SimpleTorch 2 4 (Some 1) "0.2" 0%nat = Ok (self, st1)
    /\ forall x0 edge_index edge_attr s y s',
         GATv2Layer_forward self x0 edge_index edge_attr s = Ok (y, s') ->
         exists x1 x3 s1 s2,
           conv_forward (conv self) x0 edge_index edge_attr s = Ok (x1, s1)
           /\ module_forward (bn self) (leaky_relu 0.2 x1) s1 = Ok (x3, s2)
           /\ module_forward (gat_dropout self) x3 s2 = Ok (y, s')
           /\ length y = length x0
           /\ has_width 4 y.
Proof.
  eexists _, _. split; [reflexivity|].
  eapply (@GATv2Layer_forward_stages SimpleTorch 2 4 (Some 1) "0.2" 0%nat).
  - exact SimpleTorch_GATv2Conv.
  - exact SimpleTorch_shape_preserving.
  - reflexivity.
Defined.



Lemma forward_concatenates_active_branches_witness :
  exists m st0 out st1,
    @get_model SimpleTorch example_args example_description "cpu" 0%nat
    = Ok ((m, "ArterialNet_bs-8_te-100_hc-4_hcd-3_op-adam_lr-0.001_lrs-plateau_ngl-2_nsl-1_ndl-1_agg-max_drop-0.2_wl-False_os-True_rs-42_trs-7_class"), st0)
    /\ forward m example_data st0 = Ok (out, st1)
    /\ exists global_features segment_x dense_x total_features,
         torch_cat_dim1 (not_None [global_features; segment_x; dense_x])
         = Ok total_features
         /\ forall i, (i < length total_features)%nat ->
              nth i total_features []
              = (features_at i global_features ++ features_at i segment_x
                 ++ features_at i dense_x)%list.
Proof.
  eexists _, _, _, _. split; [reflexivity|].
  match goal with |- ?A /\ _ => assert (H : A) by reflexivity end.
  split; [exact H|].
  destruct (@forward_concatenates_active_branches SimpleTorch _ _ _ _ _ H)
    as (g & sg & d & s1 & s2 & s3 & total & _ & _ & _ & _ & _ & _ & Ht
        & Hrows & _).
  exists g, sg, d, total. split; [exact Ht | exact Hrows].
Defined.


Lemma fusion_head_output_witness :
  exists m name st0 out st1,
    @get_model SimpleTorch example_args example_description "cpu" 0%nat
    = Ok ((m, name), st0)
    /\ forward m example_data st0 = Ok (out, st1)
    /\ Forall (fun row =>
                 length row = 2%nat
                 /\ Forall (fun v => (0 <= v)%R) row
                 /\ Rsum row = 1%R) out.
Proof.
  eexists _, _, _, _, _. split; [reflexivity|].
  match goal with |- ?A /\ _ => assert (H : A) by reflexivity end.
  split; [exact H|].
  destruct (@fusion_head_output SimpleTorch example_args example_description
              "cpu" 0%nat _ _ _ example_data _ _ _
              SimpleTorch_Linear eq_refl H)
    as (total & s3 & _ & _ & Hclass & _).
  apply Hclass. reflexivity.
Defined.

Lemma SimpleTorch_pool_per_graph : @pool_per_graph_contract SimpleTorch.
Proof.
  intros f input b y. simpl. unfold simple_pool.
  destruct (Nat.eqb (length b) (length input)); [|discriminate].
  intros [= <-]. rewrite length_map, length_seq. reflexivity.
Qed.

Lemma aggregation_selected_and_shared_witness :
  exists m st',
    @ArterialNet_init SimpleTorch 2 2 (Some 1) 2 4 3 2 2 1 1 "add" "0.2" true
      0%nat = Ok (m, st')
    /\ aggregation m = Some global_add_pool.
Proof.
  eexists _, _. split; [reflexivity|].
  eapply (@aggregation_selected_and_shared SimpleTorch choose_sum
            2 2 (Some 1) 2 4 3 2 2 1 1 "0.2" true 0%nat).
  - exact SimpleTorch_pool_per_graph.
  - reflexivity.
Defined.

Lemma model_name_pure_and_injective_witness :
  Args.differ_only_at Args.f_batch_size example_args example_args_bs16
  /\ "ArterialNet_bs-8_te-100_hc-4_hcd-3_op-adam_lr-0.001_lrs-plateau_ngl-2_nsl-1_ndl-1_agg-max_drop-0.2_wl-False_os-True_rs-42_trs-7_class"
     <> "ArterialNet_bs-16_te-100_hc-4_hcd-3_op-adam_lr-0.001_lrs-plateau_ngl-2_nsl-1_ndl-1_agg-max_drop-0.2_wl-False_os-True_rs-42_trs-7_class".
Proof.
  assert (Hinj : forall u v : string,
             @float_str SimpleTorch u = @float_str SimpleTorch v -> u = v)
    by (intros u v H; exact H).
  assert (Hd : Args.differ_only_at Args.f_batch_size
                 example_args example_args_bs16).
  { split.
    - discriminate.
    - intros j Hj. destruct j; try reflexivity. contradiction. }
  split; [exact Hd|].
  destruct (@model_name_pure_and_injective SimpleTorch Hinj)
    as (_ & _ & Hdiff & _).
  apply (Hdiff Args.f_batch_size example_args example_args_bs16);
    [exact Hd | reflexivity | reflexivity].
Defined.

Lemma get_model_unbound_local_witness :
  @get_model SimpleTorch example_args_unet example_description "cpu" 0%nat
  = Raise UnboundLocalError.
Proof.
  apply (@get_model_unbound_local SimpleTorch). discriminate.
Defined.

(** C2 at a concrete configuration: with all three layer counts zero the
    constructor returns a model; the failure shows only in [forward]. *)
Lemma no_branch_construction_not_rejected :
  exists m st',
    @ArterialNet_init SimpleTorch 2 2 (Some 1) 2 4 3 1 0 0 0 "max" "0.2" false
      0%nat = Ok (m, st')
    /\ forward m example_data st' = Raise RuntimeError.
Proof. eexists _, _. split; reflexivity. Qed.

Lemma no_branch_fails_at_forward_witness :
  exists m st',
    @ArterialNet_init SimpleTorch 2 2 (Some 1) 2 4 3 2 0 0 0 "max" "0.2" true
      0%nat = Ok (m, st')
    /\ global_path m = None /\ segment_path m = None
    /\ dense_path m = None
    /\ fan_in (output_layer m) = Some 0
    /\ forall data s, forward m data s = Raise RuntimeError.
Proof.
  apply (@no_branch_fails_at_forward SimpleTorch).
  - intros s. eexists _, _. reflexivity.
  - intros _ s. eexists _, _. reflexivity.
Defined.

(** C1 on the regression path: with only the dense branch active,
    [hidden_dim = 4] and [hidden_dim_dense = 3], the linear projection is
    built with 4 input features while the active branches provide 3, and
    [forward] raises on the width mismatch. *)
Theorem regression_fan_in_ignores_dense_width :
  exists m st',
    @ArterialNet_init SimpleTorch 2 2 (Some 1) 2 4 3 1 0 0 1 "max" "0.2" false
      0%nat = Ok (m, st')
    /\ fan_in (output_layer m) = Some 4
    /\ active_width m = 3
    /\ forward m example_data st' = Raise RuntimeError.
Proof. eexists _, _. repeat split; reflexivity. Qed.


(** ** Instances of the further theorems *)

Lemma zip_with_length f a b :
  length a = length b -> length (zip_with f a b) = length a.
Proof.
  intros H. unfold zip_with. rewrite length_map, length_combine. lia.
Qed.

Lemma fold_zip_with_length f (rows : Tensor) acc n :
  length acc = n -> Forall (fun row => length row = n) rows ->
  length (fold_left (zip_with f) rows acc) = n.
Proof.
  intros Hacc Hrows. revert acc Hacc.
  induction Hrows as [|row rows Hrow _ IH]; simpl; intros acc Hacc.
  - exact Hacc.
  - apply IH. rewrite zip_with_length; congruence.
Qed.

Lemma pool_rows_length f n (rows : Tensor) :
  Forall (fun row => length row = n) rows ->
  length (pool_rows f n rows) = n.
Proof.
  intros Hrows. destruct f; simpl.
  - apply fold_zip_with_length; [apply repeat_length | exact Hrows].
  - rewrite length_map.
    apply fold_zip_with_length; [apply repeat_length | exact Hrows].
  - destruct Hrows as [|row rows Hrow Hrows]; [apply repeat_length|].
    apply fold_zip_with_length; assumption.
Qed.

Lemma rows_of_Forall (P : list R -> Prop) g (t : Tensor) batch :
  Forall P t -> Forall P (rows_of g t batch).
Proof.
  intros Ht. unfold rows_of. apply List.Forall_forall. intros row Hin.
  apply in_map_iff in Hin as ([row' b] & <- & Hin).
  apply list_elem_of_In, list_elem_of_filter in Hin as [_ Hin].
  apply list_elem_of_In, in_combine_l in Hin.
  rewrite List.Forall_forall in Ht. apply Ht, Hin.
Qed.

Lemma SimpleTorch_pool : @pool_contract SimpleTorch.
Proof.
  intros f input batch y. simpl. unfold simple_pool.
  set (b := match batch with Some b => b | None => repeat 0%nat (length input) end).
  destruct (Nat.eqb (length b) (length input)) eqn:Hlen; [|discriminate].
  intros [= <-] w Hw. unfold has_width in *.
  destruct input as [|row0 input].
  - apply Nat.eqb_eq in Hlen. destruct b; [constructor|discriminate].
  - apply Forall_map, List.Forall_forall. intros g _. simpl.
    assert (H0 : Z.of_nat (length row0) = w) by (inversion Hw; assumption).
    rewrite pool_rows_length; [exact H0|].
    apply rows_of_Forall. eapply Forall_impl; [exact Hw|].
    simpl. intros row Hrow. lia.
Qed.

Lemma segment_branch_structure_witness :
  exists m st',
    @ArterialNet_init SimpleTorch 2 2 (Some 1) 2 4 3 2 2 2 1 "max" "0.2" true
      0%nat = Ok (m, st')
    /\ exists path,
         segment_path m = Some path
         /\ Z.of_nat (length path) = 2
         /\ forall i blk, path !! i = Some blk ->
              spec (conv blk)
              = GATv2Conv (if Nat.eqb i 0 then 2 else 4) 4 (Some 1)
              /\ spec (bn blk) = BatchNorm 4
              /\ spec (gat_dropout blk) = Dropout "0.2"
              /\ edge_dim blk = Some 1.
Proof.
  eexists _, _. split; [reflexivity|].
  eapply (@segment_branch_structure SimpleTorch
            2 2 (Some 1) 2 4 3 2 2 2 1 "max" "0.2" true 0%nat).
  - reflexivity.
  - lia.
Defined.

Lemma dense_branch_structure_witness :
  exists m st',
    @ArterialNet_init SimpleTorch 2 2 (Some 1) 2 4 3 2 2 2 2 "max" "0.2" true
      0%nat = Ok (m, st')
    /\ exists path,
         dense_path m = Some path
         /\ Z.of_nat (length path) = 2
         /\ forall i blk, path !! i = Some blk ->
              spec (conv blk)
              = GATv2Conv (if Nat.eqb i 0 then 2 else 3) 3 None
              /\ spec (bn blk) = BatchNorm 3
              /\ spec (gat_dropout blk) = Dropout "0.2"
              /\ edge_dim blk = None.
Proof.
  eexists _, _. split; [reflexivity|].
  eapply (@dense_branch_structure SimpleTorch
            2 2 (Some 1) 2 4 3 2 2 2 2 "max" "0.2" true 0%nat).
  - reflexivity.
  - lia.
Defined.

Lemma global_embedding_shape_witness :
  exists m st' g s',
    @ArterialNet_init SimpleTorch 2 2 (Some 1) 2 4 3 2 2 1 1 "max" "0.2" true
      0%nat = Ok (m, st')
    /\ forward_global m example_data st' = Ok (g, s')
    /\ exists y, g = Some y /\ length y = 1%nat /\ has_width 4 y.
Proof.
  eexists _, _, _, _. split; [reflexivity|].
  match goal with |- ?A /\ _ => assert (H : A) by reflexivity end.
  split; [exact H|].
  eapply (@global_embedding_shape SimpleTorch
            2 2 (Some 1) 2 4 3 2 2 1 1 "max" "0.2" true 0%nat _ _
            example_data _ _ _ SimpleTorch_Linear
            SimpleTorch_shape_preserving eq_refl ltac:(lia) H).
Defined.

Lemma segment_embedding_shape_witness :
  exists m st' g s',
    @ArterialNet_init SimpleTorch 2 2 (Some 1) 2 4 3 2 2 1 1 "max" "0.2" true
      0%nat = Ok (m, st')
    /\ forward_segment m example_data st' = Ok (g, s')
    /\ exists f nodes y,
         g = Some y
         /\ aggregation m = Some f
         /\ @pool SimpleTorch f nodes (Some [0; 0]%nat) = Ok y
         /\ length nodes = 2%nat
         /\ has_width 4 nodes /\ has_width 4 y.
Proof.
  eexists _, _, _, _. split; [reflexivity|].
  match goal with |- ?A /\ _ => assert (H : A) by reflexivity end.
  split; [exact H|].
  eapply (@segment_embedding_shape SimpleTorch
            2 2 (Some 1) 2 4 3 2 2 1 1 "max" "0.2" true 0%nat _ _
            example_data _ _ _ SimpleTorch_GATv2Conv
            SimpleTorch_shape_preserving SimpleTorch_pool eq_refl
            ltac:(lia) H).
Defined.

Lemma dense_embedding_shape_witness :
  exists m st' g s',
    @ArterialNet_init SimpleTorch 2 2 (Some 1) 2 4 3 2 2 1 1 "max" "0.2" true
      0%nat = Ok (m, st')
    /\ forward_dense m example_data st' = Ok (g, s')
    /\ exists f nodes y,
         g = Some y
         /\ aggregation m = Some f
         /\ @pool SimpleTorch f nodes (Some [0; 0; 0]%nat) = Ok y
         /\ length nodes = 3%nat
         /\ has_width 3 nodes /\ has_width 3 y.
Proof.
  eexists _, _, _, _. split; [reflexivity|].
  match goal with |- ?A /\ _ => assert (H : A) by reflexivity end.
  split; [exact H|].
  eapply (@dense_embedding_shape SimpleTorch
            2 2 (Some 1) 2 4 3 2 2 1 1 "max" "0.2" true 0%nat _ _
            example_data _ _ _ SimpleTorch_GATv2Conv
            SimpleTorch_shape_preserving SimpleTorch_pool eq_refl
            ltac:(lia) H).
Defined.


Lemma fused_features_shape_witness :
  exists m st' y s',
    @ArterialNet_init SimpleTorch 2 2 (Some 1) 2 4 3 2 2 1 1 "max" "0.2" true
      0%nat = Ok (m, st')
    /\ forward m example_data st' = Ok (y, s')
    /\ exists global_features segment_x dense_x s1 s2 s3 total_features,
         forward_global m example_data st' = Ok (global_features, s1)
         /\ forward_segment m example_data s1 = Ok (segment_x, s2)
         /\ forward_dense m example_data s2 = Ok (dense_x, s3)
         /\ torch_cat_dim1 (not_None [global_features; segment_x; dense_x])
            = Ok total_features
         /\ NNModule_forward (output_layer m) total_features s3 = Ok (y, s')
         /\ has_width (active_width m) total_features
         /\ active_width m = 11
         /\ length y = length total_features.
Proof.
  eexists _, _, _, _. split; [reflexivity|].
  match goal with |- ?A /\ _ => assert (H : A) by reflexivity end.
  split; [exact H|].
  destruct (@fused_features_shape SimpleTorch
              2 2 (Some 1) 2 4 3 2 2 1 1 "max" "0.2" true 0%nat _ _
              example_data _ _ _ SimpleTorch_Linear SimpleTorch_GATv2Conv
              SimpleTorch_shape_preserving SimpleTorch_pool eq_refl H)
    as (g & sg & d & s1 & s2 & s3 & total & Hg & Hs & Hd & Ht & Ho & Hw
        & _ & _ & _ & Hl).
  exists g, sg, d, s1, s2, s3, total.
  repeat (split; [assumption|]). split; [reflexivity | exact Hl].
Defined.

Lemma fan_in_matches_active_width_witness :
  exists m st',
    @ArterialNet_init SimpleTorch 2 2 (Some 1) 2 4 3 1 1 1 1 "max" "0.2" false
      0%nat = Ok (m, st')
    /\ fan_in (output_layer m) <> Some (active_width m).
Proof.
  eexists _, _. split; [reflexivity|].
  intros E.
  apply (@fan_in_matches_active_width SimpleTorch
           2 2 (Some 1) 2 4 3 1 1 1 1 "max" "0.2" false 0%nat _ _ eq_refl)
    in E.
  destruct E as [E|[E|E]]; [discriminate | lia | discriminate].
Defined.

Lemma forward_reads_edge_attr_only_with_edge_dim_witness :
  exists m st',
    @ArterialNet_init SimpleTorch 2 2 None 2 4 3 2 2 1 1 "max" "0.2" true
      0%nat = Ok (m, st')
    /\ forward m (with_segment_edge_attr example_data (Some [[7]]%R)) st'
       = forward m example_data st'.
Proof.
  eexists _, _. split; [reflexivity|].
  eapply (@forward_reads_edge_attr_only_with_edge_dim SimpleTorch
            2 2 None 2 4 3 2 2 1 1 "max" "0.2" true 0%nat);
    reflexivity.
Defined.

Lemma unknown_aggregation_never_returns_witness :
  exists m st',
    @ArterialNet_init SimpleTorch 2 2 (Some 1) 2 4 3 2 2 1 1 "sum" "0.2" true
      0%nat = Ok (m, st')
    /\ aggregation m = None
    /\ forall out' s', forward m example_data st' <> Ok (out', s').
Proof.
  eexists _, _. split; [reflexivity|].
  eapply (@unknown_aggregation_never_returns SimpleTorch
            2 2 (Some 1) 2 4 3 2 2 1 1 "sum" "0.2" true 0%nat);
    first [discriminate | reflexivity | (left; lia)].
Defined.

Lemma get_model_returns_constructed_model_witness :
  exists m name s',
    @get_model SimpleTorch example_args example_description "cpu" 0%nat
    = Ok ((m, name), s')
    /\ out_dim m = 2 /\ is_classification m = true
    /\ hidden_dim m = 4 /\ hidden_dim_dense m = 3.
Proof.
  eexists _, _, _.
  match goal with |- ?A /\ _ => assert (H : A) by reflexivity end.
  split; [exact H|].
  destruct (@get_model_returns_constructed_model SimpleTorch example_args
              example_description "cpu" 0%nat eq_refl)
    as (_ & _ & _ & Hattr).
  exact (Hattr _ _ _ H).
Defined.

Lemma init_raises_only_from_framework_witness :
  @ArterialNet_init SimpleTorch 2 2 (Some 1) 2 (-1) 3 2 1 0 0 "max" "0.2" true
    0%nat = Raise RuntimeError
  /\ exists sp s, @new_module SimpleTorch sp s = Raise RuntimeError.
Proof.
  assert (H : @ArterialNet_init SimpleTorch 2 2 (Some 1) 2 (-1) 3 2 1 0 0
                "max" "0.2" true 0%nat = Raise RuntimeError) by reflexivity.
  split; [exact H|].
  exact (@init_raises_only_from_framework SimpleTorch _ _ _ _ _ _ _ _ _ _ _
           _ _ _ _ H).
Defined.


Lemma forward_raises_on_row_mismatch_witness :
  exists m st',
    @ArterialNet_init SimpleTorch 2 2 (Some 1) 2 4 3 2 2 1 1 "max" "0.2" true
      0%nat = Ok (m, st')
    /\ forward m example_data_two_samples st' = Raise RuntimeError.
Proof.
  eexists _, _. split; [reflexivity|].
  eapply (@forward_raises_on_row_mismatch SimpleTorch _
            example_data_two_samples).
  - reflexivity.
  - reflexivity.
  - reflexivity.
  - left. reflexivity.
  - right. left. reflexivity.
  - simpl. discriminate.
Defined.
